(** * certbot.plugins.dns_common: common code for DNS authenticator plugins

    A shallow embedding of [certbot/plugins/dns_common.py] and the
    properties its specification states about it.

    Layout: Python primitives used by the module ([str.split], [str.join],
    [dict], truthiness), the utility functions, the credentials file
    wrapper, the [DNSAuthenticator] base class, and then the theorems. *)

From Stdlib Require Import ZArith Ascii.
From stdpp Require Import base option list strings gmap.

Local Open Scope Z_scope.

(** ** Python primitives *)

Module Py.

(** [s.split(sep)] for a one-character separator: the pieces between
    successive separators, empty pieces included; always non-empty. *)
Fixpoint split (sep : ascii) (s : string) : list string :=
  match s with
  | EmptyString => [EmptyString]
  | String c s' =>
      if Ascii.eqb c sep then EmptyString :: split sep s'
      else match split sep s' with
           | [] => [String c EmptyString]
           | f :: fs => String c f :: fs
           end
  end.

(** [sep.join(l)]. *)
Fixpoint join (sep : string) (l : list string) : string :=
  match l with
  | [] => EmptyString
  | x :: xs =>
      match xs with
      | [] => x
      | _ :: _ => x +:+ sep +:+ join sep xs
      end
  end.

(** [s.count(c)] for a one-character [c]. *)
Fixpoint count (c : ascii) (s : string) : nat :=
  match s with
  | EmptyString => 0%nat
  | String a s' => ((if Ascii.eqb a c then 1 else 0) + count c s')%nat
  end.

(** [d.endswith(s)], as a proposition. *)
Definition endswith (d s : string) : Prop := ∃ pre, d = pre +:+ s.

(** [x in d] for strings: [x] occurs in [d] as a substring. *)
Definition contains (d x : string) : Prop := ∃ pre post, d = pre +:+ x +:+ post.

End Py.

(** ** Exceptions, results and the state-and-error monad *)

(** The exceptions the module raises itself ([errors.PluginError]) and the
    ones its callees raise through it. *)
Inductive exn :=
  | PluginError (msg : string)
  | ValueError (msg : string)
  | TypeError
  | KeyError (key : string)
  | OSError (path : string)
  | ConfigObjError (path : string).

Inductive result (A : Type) :=
  | Ok (a : A)
  | Raise (e : exn).
Arguments Ok {A} a.
Arguments Raise {A} e.

Definition is_ok {A} (r : result A) : bool :=
  match r with Ok _ => true | Raise _ => false end.

(** A computation on a mutable state [S] that returns or raises.  The
    state a raising computation leaves behind is kept: Python does not
    roll back mutations when an exception propagates. *)
Definition M (S A : Type) : Type := S → result A * S.

#[global] Instance M_ret {S} : MRet (M S) := λ A a s, (Ok a, s).
#[global] Instance M_bind {S} : MBind (M S) := λ A B f m s,
  match m s with
  | (Ok a, s') => f a s'
  | (Raise e, s') => (Raise e, s')
  end.

Definition raise {S A} (e : exn) : M S A := λ s, (Raise e, s).
Definition gets {S A} (f : S → A) : M S A := λ s, (Ok (f s), s).
Definition modify {S} (f : S → S) : M S unit := λ s, (Ok tt, f s).
Definition lift_result {S A} (r : result A) : M S A := λ s, (r, s).

(** ** Python values, truthiness and dictionaries *)

(** The values a configuration attribute holds. *)
Inductive value :=
  | VNone
  | VStr (s : string)
  | VInt (n : Z).

(** [bool(v)]. *)
Definition truthy (v : value) : bool :=
  match v with
  | VNone => false
  | VStr s => negb (String.eqb s EmptyString)
  | VInt n => negb (n =? 0)
  end.

(** [bool(o)] for the result of [dict.get]: [None] and [''] are false. *)
Definition truthy_get (o : option string) : bool :=
  match o with
  | None => false
  | Some s => negb (String.eqb s EmptyString)
  end.

(** A [dict] with string keys and values, in iteration order. *)
Definition dict : Type := list (string * string).

Definition dict_keys (d : dict) : list string := d.*1.

(** [d[k]]; [None] stands for [KeyError]. *)
Fixpoint dict_getitem (d : dict) (k : string) : option string :=
  match d with
  | [] => None
  | (k', v) :: d' => if String.eqb k' k then Some v else dict_getitem d' k
  end.

(** [bool(d)] for an optional dict argument: [None] and [{}] are false. *)
Definition truthy_dict (d : option dict) : bool :=
  match d with
  | None | Some [] => false
  | Some (_ :: _) => true
  end.

Definition dquote : string := String (ascii_of_nat 34) EmptyString.
Definition newline : string := String (ascii_of_nat 10) EmptyString.

(** ** The environment a plugin runs in *)

(** What the operating system and [configobj] answer for a path:
    [os.stat] (follows symbolic links, [None] when it fails), [os.lstat]
    (does not follow them), and the parsed key/value content. *)
Record FileSystem := {
  os_stat : string → option Z;
  os_lstat : string → option Z;
  configobj_parse : string → option (gmap string string)
}.

(** Status codes of the display utility. *)
Inductive status := OK | CANCEL | HELP | ESC.

Definition status_eqb (a b : status) : bool :=
  match a, b with
  | OK, OK | CANCEL, CANCEL | HELP, HELP | ESC, ESC => true
  | _, _ => false
  end.

(** Everything a plugin method can read or change: the shared
    configuration namespace, the file system, what the user is going to
    answer at the prompts, the warnings logged so far, and the state [B]
    of the concrete DNS provider plugin. *)
Record Env (B : Type) := {
  config : gmap string value;
  fs : FileSystem;
  answers : list (status * string);
  warnings : list string;
  provider : B
}.
Arguments config {B} _.
Arguments fs {B} _.
Arguments answers {B} _.
Arguments warnings {B} _.
Arguments provider {B} _.

Definition set_config {B} (f : gmap string value → gmap string value)
    (e : Env B) : Env B :=
  {| config := f (config e); fs := fs e; answers := answers e;
     warnings := warnings e; provider := provider e |}.

Definition set_answers {B} (a : list (status * string)) (e : Env B) : Env B :=
  {| config := config e; fs := fs e; answers := a;
     warnings := warnings e; provider := provider e |}.

Definition set_provider {B} (b : B) (e : Env B) : Env B :=
  {| config := config e; fs := fs e; answers := answers e;
     warnings := warnings e; provider := b |}.

(** [logger.warning(msg)]. *)
Definition logger_warning {B} (msg : string) : M (Env B) unit :=
  modify (λ e, {| config := config e; fs := fs e; answers := answers e;
                  warnings := warnings e ++ [msg]; provider := provider e |}).

(** ** [stat] constants *)

Definition S_IFMT (mode : Z) : Z := Z.land mode 0xF000.   (* 0o170000 *)
Definition S_IFREG : Z := 0x8000.                         (* 0o100000 *)
Definition S_IFDIR : Z := 0x4000.                         (* 0o040000 *)
Definition S_ISREG (mode : Z) : bool := S_IFMT mode =? S_IFREG.
Definition S_IMODE (mode : Z) : Z := Z.land mode 0xFFF.   (* 0o7777 *)
Definition S_IRWXO : Z := 7.                              (* 0o0007 *)

(** [os.path.exists] and [os.path.isfile]: both follow symbolic links. *)
Definition os_path_exists (f : FileSystem) (path : string) : bool :=
  match os_stat f path with
  | Some _ => true
  | None => false
  end.

Definition os_path_isfile (f : FileSystem) (path : string) : bool :=
  match os_stat f path with
  | Some mode => S_ISREG mode
  | None => false
  end.

(** ** Utilities *)

(** [validate_file]: reads the file system only, hence a plain result. *)
Definition validate_file (f : FileSystem) (filename : string) : result unit :=
  if negb (os_path_exists f filename) then
    Raise (PluginError ("File not found: " +:+ filename))
  else if negb (os_path_isfile f filename) then
    Raise (PluginError ("Path is not a file: " +:+ filename))
  else Ok tt.

Definition validate_file_permissions {B} (filename : string) : M (Env B) unit :=
  e ← gets id;
  lift_result (validate_file (fs e) filename);;
  match os_lstat (fs e) filename with
  | None => raise (OSError filename)
  | Some st_mode =>
      let permissions := S_IMODE st_mode in
      if negb (Z.land permissions S_IRWXO =? 0) then
        logger_warning
          ("Unsafe permissions on credentials configuration file: " +:+ filename)
      else mret tt
  end.

(** [base_domain_name_guesses]: [fragments[i:]] is [drop i fragments] and
    [range(0, len(fragments))] is [seq 0 (length fragments)]. *)
Definition base_domain_name_guesses (domain : string) : list string :=
  let fragments := Py.split "." domain in
  map (λ i, Py.join "." (drop i fragments)) (seq 0 (length fragments)).


(** ** The display utility *)

(** Modelled from the spec: [certbot.display.ops.validated_input] and
    [validated_directory] are not part of this module.  The spec describes
    them as "prompt for a line of text (a path) with a validator, return
    (statusCode, value)".  The user's answers are scripted in [answers]: an
    [OK] answer the validator rejects is asked again, any other status code
    ends the prompt, and a user who has no answer left has cancelled. *)
Fixpoint get_validated (validator : string → result unit)
    (script : list (status * string))
    : (status * string) * list (status * string) :=
  match script with
  | [] => ((CANCEL, EmptyString), [])
  | (code, raw) :: rest =>
      if status_eqb code OK then
        match validator raw with
        | Ok _ => ((code, raw), rest)
        | Raise _ => get_validated validator rest
        end
      else ((code, raw), rest)
  end.

Definition validated_input {B} (validator : string → result unit)
    (message : string) : M (Env B) (status * string) :=
  λ e, let '(r, rest) := get_validated validator (answers e) in
       (Ok r, set_answers rest e).

Definition validated_directory {B} (validator : string → result unit)
    (message : string) : M (Env B) (status * string) :=
  λ e, let '(r, rest) := get_validated validator (answers e) in
       (Ok r, set_answers rest e).

(** ** [CredentialsConfiguration] *)

(** [confobj] is the parsed file; [filename] is [confobj.filename]. *)
Record CredentialsConfiguration := {
  filename : string;
  confobj : gmap string string;
  mapper : string → string
}.

Module CredentialsConfiguration.

(** [__init__(filename, mapper)]. *)
Definition __init__ {B} (path : string) (mapper : string → string)
    : M (Env B) CredentialsConfiguration :=
  validate_file_permissions path;;
  e ← gets id;
  match configobj_parse (fs e) path with
  | None => raise (ConfigObjError path)
  | Some parsed =>
      mret {| filename := path; confobj := parsed; mapper := mapper |}
  end.

Definition _has (self : CredentialsConfiguration) (var : string) : bool :=
  match confobj self !! mapper self var with
  | Some _ => true
  | None => false
  end.

Definition _get (self : CredentialsConfiguration) (var : string)
    : option string :=
  confobj self !! mapper self var.

Definition conf (self : CredentialsConfiguration) (var : string)
    : option string :=
  _get self var.

Definition not_found_message (name description : string) : string :=
  "Property " +:+ dquote +:+ name +:+ dquote +:+
  " not found (should be " +:+ description +:+ ").".

Definition not_set_message (name description : string) : string :=
  "Property " +:+ dquote +:+ name +:+ dquote +:+
  " not set (should be " +:+ description +:+ ").".

(** The body of [for var in required_variables], threading [messages]. *)
Fixpoint require_loop (self : CredentialsConfiguration)
    (required_variables : dict) (vars : list string)
    (messages : list string) : result (list string) :=
  match vars with
  | [] => Ok messages
  | var :: rest =>
      if negb (_has self var) then
        match dict_getitem required_variables var with
        | None => Raise (KeyError var)
        | Some description =>
            require_loop self required_variables rest
              (messages ++ [not_found_message (mapper self var) description])
        end
      else if negb (truthy_get (_get self var)) then
        match dict_getitem required_variables var with
        | None => Raise (KeyError var)
        | Some description =>
            require_loop self required_variables rest
              (messages ++ [not_set_message (mapper self var) description])
        end
      else require_loop self required_variables rest messages
  end.

Definition missing_message (self : CredentialsConfiguration)
    (messages : list string) : string :=
  "Missing " +:+
  (if (length messages =? 1)%nat then "property" else "properties") +:+
  " in credentials configuration file " +:+ filename self +:+
  ":" +:+ newline +:+ " * " +:+
  Py.join (newline +:+ " * ") messages.

Definition require (self : CredentialsConfiguration)
    (required_variables : dict) : result unit :=
  match require_loop self required_variables
          (dict_keys required_variables) [] with
  | Raise e => Raise e
  | Ok messages =>
      match messages with
      | [] => Ok tt
      | _ :: _ => Raise (PluginError (missing_message self messages))
      end
  end.

End CredentialsConfiguration.

(** ** [DNSAuthenticator] *)

(** An annotated challenge, owned by the ACME layer: its attributes and
    the three methods the authenticator calls on it. *)
Record AnnotatedChallenge (K R : Type) := {
  domain : string;
  account_key : K;
  validation_domain_name : string → string;
  validation : K → string;
  response : K → R
}.
Arguments domain {K R} _.
Arguments account_key {K R} _.
Arguments validation_domain_name {K R} _ _.
Arguments validation {K R} _ _.
Arguments response {K R} _ _.

(** The calls an authenticator makes on its provider plugin and on
    [time.sleep], each with its outcome, in the order they were made.
    This is an observation of the run, not state of the program. *)
Inductive call :=
  | CallSetupCredentials (ok : bool)
  | CallPerform (domain validation_domain_name validation : string) (ok : bool)
  | CallCleanup (domain validation_domain_name validation : string) (ok : bool)
  | CallSleep (seconds : Z).

(** An authenticator instance: the [_attempt_cleanup] attribute, the
    environment its methods act on, and the calls observed so far. *)
Record Authenticator (B : Type) := {
  _attempt_cleanup : bool;
  env : Env B;
  calls : list call
}.
Arguments _attempt_cleanup {B} _.
Arguments env {B} _.
Arguments calls {B} _.

(** A new instance: [_attempt_cleanup = False] is the class attribute. *)
Definition new {B} (e : Env B) : Authenticator B :=
  {| _attempt_cleanup := false; env := e; calls := [] |}.

(** The abstract methods every provider plugin implements.  They act on
    the environment, not on [_attempt_cleanup]. *)
Class DNSProvider (B : Type) := {
  _setup_credentials : M (Env B) unit;
  _perform : string → string → string → M (Env B) unit;
  _cleanup : string → string → string → M (Env B) unit
}.

(** A declared command line argument. *)
Inductive argtype := type_int | type_str.

Record argument := {
  arg_name : string;
  arg_default : value;
  arg_type : argtype;
  arg_help : string
}.


Section DNSAuthenticator.

Context {K R B : Type} `{!DNSProvider B}.

(** [common.Plugin.dest], [os.path.expanduser] and [os.path.abspath]:
    pure functions of the plugin name and of the process environment. *)
Context (dest : string → string) (expanduser abspath : string → string).

(** Modelled from the spec: [common.Plugin.conf] is inherited, the spec
    has the shared configuration object "read via conf(key), written via
    a dest(key)-mapped attribute set".  An option nobody set reads as
    [None]. *)
Definition conf (var : string) : M (Env B) value :=
  gets (λ e, default VNone (config e !! dest var)).

(** [setattr(self.config, name, v)]. *)
Definition setattr_config (name : string) (v : value) : M (Env B) unit :=
  modify (set_config <[name := v]>).

(** [add_parser_arguments(cls, add)]. *)
Definition add_parser_arguments {S} (add : argument → M S unit) : M S unit :=
  add {| arg_name := "propagation-seconds";
         arg_default := VInt 10;
         arg_type := type_int;
         arg_help := "The number of seconds to wait for DNS to propagate " +:+
                     "before asking the ACME server to verify the DNS record." |}.

(** Modelled from the spec: the plugin registration framework that
    supplies [add] is not part of this module.  It makes the declared
    argument a configurable value: the namespace holds, under
    [dest(name)], what the user gave on the command line, and the
    declared default otherwise. *)
Definition parser_add (given : gmap string value) (a : argument)
    : M (gmap string value) unit :=
  modify (λ namespace,
    <[dest (arg_name a) := default (arg_default a) (given !! arg_name a)]>
      namespace).

Definition _prompt_for_data (label : string) : M (Env B) string :=
  let __validator (i : string) : result unit :=
    if negb (truthy (VStr i)) then
      Raise (PluginError ("Please enter your " +:+ label +:+ "."))
    else Ok tt in
  '(code, response) ← validated_input __validator ("Input your " +:+ label);
  if status_eqb code OK then mret response
  else raise (PluginError (label +:+ " required to proceed.")).

Definition _prompt_for_file (label : string) : M (Env B) string :=
  e ← gets id;
  let __validator (filename : string) : result unit :=
    if negb (truthy (VStr filename)) then
      Raise (PluginError
               ("Please enter a valid path to your " +:+ label +:+ "."))
    else validate_file (fs e) (expanduser filename) in
  '(code, response) ←
    validated_directory __validator ("Input the path to your " +:+ label);
  if status_eqb code OK then mret response
  else raise (PluginError (label +:+ " required to proceed.")).

Definition _configure (key label : string) : M (Env B) unit :=
  configured_value ← conf key;
  if negb (truthy configured_value) then
    new_value ← _prompt_for_data label;
    setattr_config (dest key) (VStr new_value)
  else mret tt.

Definition _configure_file (key label : string) : M (Env B) unit :=
  configured_value ← conf key;
  if negb (truthy configured_value) then
    new_value ← _prompt_for_file label;
    setattr_config (dest key) (VStr (abspath (expanduser new_value)))
  else mret tt.

(** The path handed to [CredentialsConfiguration] has to be a string. *)
Definition as_path (v : value) : M (Env B) string :=
  match v with
  | VStr path => mret path
  | VNone | VInt _ => raise TypeError
  end.

Definition _configure_credentials (key label : string)
    (required_variables : option dict) : M (Env B) CredentialsConfiguration :=
  _configure_file key label;;
  path ← conf key ≫= as_path;
  credentials_configuration ← CredentialsConfiguration.__init__ path dest;
  (if truthy_dict required_variables then
     lift_result (CredentialsConfiguration.require credentials_configuration
                    (default [] required_variables))
   else mret tt);;
  mret credentials_configuration.

(** Running a provider method on the instance's environment, and
    recording the call with its outcome. *)
Definition observe {A} (mk : bool → call) (m : M (Env B) A)
    : M (Authenticator B) A :=
  λ self,
    let '(r, e) := m (env self) in
    (r, {| _attempt_cleanup := _attempt_cleanup self;
           env := e;
           calls := calls self ++ [mk (is_ok r)] |}).

(** Reading the environment from a method of the instance. *)
Definition with_env {A} (m : M (Env B) A) : M (Authenticator B) A :=
  λ self,
    let '(r, e) := m (env self) in
    (r, {| _attempt_cleanup := _attempt_cleanup self;
           env := e;
           calls := calls self |}).

Definition set_attempt_cleanup (b : bool) : M (Authenticator B) unit :=
  modify (λ self, {| _attempt_cleanup := b; env := env self;
                     calls := calls self |}).

(** [time.sleep(secs)]: raises on a negative duration ([ValueError]; an
    [IOError] on Python 2) and on anything that is not a number; otherwise
    the calling thread is suspended for [secs] seconds. *)
Definition sleep (secs : value) : M (Authenticator B) unit :=
  match secs with
  | VInt n =>
      if n <? 0 then raise (ValueError "sleep length must be non-negative")
      else modify (λ self, {| _attempt_cleanup := _attempt_cleanup self;
                              env := env self;
                              calls := calls self ++ [CallSleep n] |})
  | VNone | VStr _ => raise TypeError
  end.

(** The [for achall in achalls] loop of [perform], threading
    [responses]. *)
Fixpoint perform_loop (achalls : list (AnnotatedChallenge K R))
    (responses : list R) : M (Authenticator B) (list R) :=
  match achalls with
  | [] => mret responses
  | achall :: rest =>
      let domain := domain achall in
      let validation_domain_name := validation_domain_name achall domain in
      let validation := validation achall (account_key achall) in
      observe (CallPerform domain validation_domain_name validation)
              (_perform domain validation_domain_name validation);;
      perform_loop rest (responses ++ [response achall (account_key achall)])
  end.

Definition perform (achalls : list (AnnotatedChallenge K R))
    : M (Authenticator B) (list R) :=
  observe CallSetupCredentials _setup_credentials;;
  set_attempt_cleanup true;;
  responses ← perform_loop achalls [];
  secs ← with_env (conf "propagation-seconds");
  sleep secs;;
  mret responses.

(** The [for achall in achalls] loop of [cleanup]. *)
Fixpoint cleanup_loop (achalls : list (AnnotatedChallenge K R))
    : M (Authenticator B) unit :=
  match achalls with
  | [] => mret tt
  | achall :: rest =>
      let domain := domain achall in
      let validation_domain_name := validation_domain_name achall domain in
      let validation := validation achall (account_key achall) in
      observe (CallCleanup domain validation_domain_name validation)
              (_cleanup domain validation_domain_name validation);;
      cleanup_loop rest
  end.

Definition cleanup (achalls : list (AnnotatedChallenge K R))
    : M (Authenticator B) unit :=
  attempt ← gets _attempt_cleanup;
  if (attempt : bool) then cleanup_loop achalls else mret tt.

(** A caller of the instance: it calls [perform] and [cleanup] in some
    order and goes on after an exception. *)
Inductive method_call :=
  | do_perform (achalls : list (AnnotatedChallenge K R))
  | do_cleanup (achalls : list (AnnotatedChallenge K R)).

Definition is_perform (c : method_call) : bool :=
  match c with do_perform _ => true | do_cleanup _ => false end.

Definition invoke (self : Authenticator B) (c : method_call)
    : Authenticator B :=
  match c with
  | do_perform achalls => (perform achalls self).2
  | do_cleanup achalls => (cleanup achalls self).2
  end.

Definition invoke_all (history : list method_call) (self : Authenticator B)
    : Authenticator B :=
  foldl invoke self history.

(** The provider calls alone, as [perform] and [cleanup] make them for
    one challenge. *)
Definition create_record (achall : AnnotatedChallenge K R)
    : M (Env B) unit :=
  _perform (domain achall) (validation_domain_name achall (domain achall))
           (validation achall (account_key achall)).

Definition delete_record (achall : AnnotatedChallenge K R)
    : M (Env B) unit :=
  _cleanup (domain achall) (validation_domain_name achall (domain achall))
           (validation achall (account_key achall)).

Definition created (ok : bool) (achall : AnnotatedChallenge K R) : call :=
  CallPerform (domain achall) (validation_domain_name achall (domain achall))
              (validation achall (account_key achall)) ok.

Definition deleted (ok : bool) (achall : AnnotatedChallenge K R) : call :=
  CallCleanup (domain achall) (validation_domain_name achall (domain achall))
              (validation achall (account_key achall)) ok.

(** [all_succeed f achalls e] is the environment after [f] ran on every
    challenge in turn, if none of the runs raised. *)
Fixpoint all_succeed (f : AnnotatedChallenge K R → M (Env B) unit)
    (achalls : list (AnnotatedChallenge K R)) (e : Env B) : option (Env B) :=
  match achalls with
  | [] => Some e
  | achall :: rest =>
      match f achall e with
      | (Ok _, e') => all_succeed f rest e'
      | (Raise _, _) => None
      end
  end.

End DNSAuthenticator.


(** ** A provider plugin to run the code on *)

(** A provider that keeps its TXT records in a list, the way the test
    suite's fake authenticator stands in for a real DNS API.  It manages
    every zone except [unmanaged.example]. *)
Module Example.

Definition records : Type := list (string * string).

Definition dash_to_underscore (c : ascii) : ascii :=
  if Ascii.eqb c "-" then "_"%char else c.

Fixpoint map_string (f : ascii → ascii) (s : string) : string :=
  match s with
  | EmptyString => EmptyString
  | String c s' => String (f c) (map_string f s')
  end.

(** [dest] of a plugin named [dns-example]. *)
Definition dest (var : string) : string :=
  "dns_example_" +:+ map_string dash_to_underscore var.

(** Every path of the example is absolute and has no [~]. *)
Definition expanduser (path : string) : string := path.
Definition abspath (path : string) : string := path.

Definition required : dict :=
  [("token", "API token"); ("email", "account email")].

#[export] Instance list_provider : DNSProvider records := {
  _setup_credentials :=
    _configure_credentials dest expanduser abspath
      "credentials" "credentials INI file" (Some required);;
    mret tt;
  _perform domain validation_domain_name validation :=
    if String.eqb domain "unmanaged.example" then
      raise (PluginError ("Unable to determine zone for " +:+ domain))
    else
      modify (λ e, set_provider
                     ((validation_domain_name, validation) :: provider e) e);
  _cleanup domain validation_domain_name validation :=
    modify (λ e, set_provider
                   (filter (λ r, r ≠ (validation_domain_name, validation))
                           (provider e)) e)
}.

(** A provider whose record deletion raises. *)
Definition raising_cleanup : DNSProvider records := {|
  _setup_credentials := mret tt;
  _perform domain validation_domain_name validation := mret tt;
  _cleanup domain validation_domain_name validation :=
    raise (PluginError ("Unable to delete record for " +:+ domain))
|}.

(** Mode [0o100600], [0o100644] and [0o040755]. *)
Definition private_file : Z := 0x8180.
Definition world_readable_file : Z := 0x81A4.
Definition directory : Z := 0x41ED.

Definition stat (path : string) : option Z :=
  if String.eqb path "/etc/letsencrypt/example.ini" then Some private_file
  else if String.eqb path "/etc/letsencrypt/open.ini" then
    Some world_readable_file
  else if String.eqb path "/etc/letsencrypt/empty.ini" then Some private_file
  else if String.eqb path "/etc/letsencrypt" then Some directory
  else None.

Definition parse (path : string) : option (gmap string string) :=
  if String.eqb path "/etc/letsencrypt/example.ini" then
    Some {[ "dns_example_token" := "0123456789abcdef";
            "dns_example_email" := "admin@example.com" ]}
  else if String.eqb path "/etc/letsencrypt/open.ini" then
    Some {[ "dns_example_token" := EmptyString ]}
  else if String.eqb path "/etc/letsencrypt/empty.ini" then Some ∅
  else None.

Definition files : FileSystem :=
  {| os_stat := stat; os_lstat := stat; configobj_parse := parse |}.

(** The [CredentialsConfiguration] of a file of the example. *)
Definition credentials (path : string) : CredentialsConfiguration :=
  {| filename := path; confobj := default ∅ (parse path); mapper := dest |}.

(** A credentials file is configured and the propagation delay has its
    default. *)
Definition configured_with (path : string) : Env records :=
  {| config := {[ "dns_example_credentials" := VStr path;
                  "dns_example_propagation_seconds" := VInt 10 ]};
     fs := files; answers := []; warnings := []; provider := [] |}.

Definition configured : Env records :=
  configured_with "/etc/letsencrypt/example.ini".

(** No credentials file is configured and the user cancels the prompt. *)
Definition cancelled : Env records :=
  {| config := {[ "dns_example_propagation_seconds" := VInt 10 ]};
     fs := files; answers := [(CANCEL, EmptyString)]; warnings := [];
     provider := [] |}.

(** A negative propagation delay was given on the command line. *)
Definition negative_delay : Env records :=
  {| config := {[ "dns_example_credentials" :=
                    VStr "/etc/letsencrypt/example.ini";
                  "dns_example_propagation_seconds" := VInt (-5) ]};
     fs := files; answers := []; warnings := []; provider := [] |}.

Definition achall (name token : string) : AnnotatedChallenge string string :=
  {| domain := name;
     account_key := "account-key";
     validation_domain_name := λ name, "_acme-challenge." +:+ name;
     validation := λ key, token;
     response := λ key, token +:+ "." +:+ key |}.

Definition www : AnnotatedChallenge string string :=
  achall "www.example.com" "token-1".
Definition mail : AnnotatedChallenge string string :=
  achall "mail.example.com" "token-2".
Definition unmanaged : AnnotatedChallenge string string :=
  achall "unmanaged.example" "token-3".

End Example.


(** ** More environments to run the code on *)

Module Fixtures.

(** Mode [0o120777], that of a symbolic link. *)
Definition symbolic_link : Z := 0xA1FF.

(** [/etc/letsencrypt/link.ini] is a symbolic link to the private
    credentials file: [os.stat] sees the file, [os.lstat] the link. *)
Definition lstat (path : string) : option Z :=
  if String.eqb path "/etc/letsencrypt/link.ini" then Some symbolic_link
  else Example.stat path.

Definition stat (path : string) : option Z :=
  if String.eqb path "/etc/letsencrypt/link.ini" then
    Some Example.private_file
  else Example.stat path.

Definition linked_files : FileSystem :=
  {| os_stat := stat; os_lstat := lstat;
     configobj_parse := Example.parse |}.

Definition linked : Env Example.records :=
  {| config := ∅; fs := linked_files; answers := []; warnings := [];
     provider := [] |}.

(** Nothing is configured; the user first enters nothing, then a
    directory, then the path of the credentials file. *)
Definition prompted : Env Example.records :=
  {| config := ∅; fs := Example.files;
     answers := [(OK, EmptyString); (OK, "/etc/letsencrypt");
                 (OK, "/etc/letsencrypt/example.ini")];
     warnings := []; provider := [] |}.

(** A credentials file with the token set, the secret left empty and no
    email. *)
Definition partial : CredentialsConfiguration :=
  {| filename := "/etc/letsencrypt/partial.ini";
     confobj := {[ "dns_example_token" := "0123456789abcdef";
                   "dns_example_secret" := EmptyString ]};
     mapper := Example.dest |}.

(** The configured credentials file does not exist. *)
Definition misconfigured : Env Example.records :=
  Example.configured_with "/etc/letsencrypt/missing.ini".

End Fixtures.

(** ** Properties of the string primitives *)

Section strings.

Lemma app_empty_l (s : string) : EmptyString +:+ s = s.
Proof. reflexivity. Qed.

Lemma app_cons (c : ascii) (a b : string) :
  String c a +:+ b = String c (a +:+ b).
Proof. reflexivity. Qed.

Lemma app_empty_r (s : string) : s +:+ EmptyString = s.
Proof. induction s as [|c s IH]; [done|]. by rewrite app_cons, IH. Qed.

Lemma app_assoc_str (a b c : string) : (a +:+ b) +:+ c = a +:+ b +:+ c.
Proof.
  induction a as [|x a IH]; [done|]. by rewrite !app_cons, IH.
Qed.

Lemma length_app_str (a b : string) :
  String.length (a +:+ b) = (String.length a + String.length b)%nat.
Proof.
  induction a as [|x a IH]; [done|]. rewrite app_cons. simpl. by rewrite IH.
Qed.

Lemma split_nonempty sep s : Py.split sep s ≠ [].
Proof.
  destruct s as [|c s]; simpl; [done|].
  destruct (Ascii.eqb c sep); [done|]. by destruct (Py.split sep s).
Qed.

Lemma split_cons_sep sep s :
  Py.split sep (String sep s) = EmptyString :: Py.split sep s.
Proof. simpl. by rewrite Ascii.eqb_refl. Qed.

(** Splitting at an occurrence of the separator splits the result. *)
Lemma split_app sep a b :
  Py.split sep (a +:+ String sep b) = Py.split sep a ++ Py.split sep b.
Proof.
  induction a as [|c a IH].
  - by rewrite app_empty_l, split_cons_sep.
  - rewrite app_cons. simpl. rewrite IH.
    destruct (Ascii.eqb c sep); [done|].
    pose proof (split_nonempty sep a) as Hne.
    by destruct (Py.split sep a).
Qed.

Lemma join_cons sep x y l :
  Py.join sep (x :: y :: l) = x +:+ sep +:+ Py.join sep (y :: l).
Proof. reflexivity. Qed.

Lemma join_app sep l1 l2 :
  l1 ≠ [] → l2 ≠ [] →
  Py.join sep (l1 ++ l2) = Py.join sep l1 +:+ sep +:+ Py.join sep l2.
Proof.
  intros H1 H2. induction l1 as [|x l1 IH]; [done|].
  destruct l1 as [|y l1].
  - destruct l2 as [|z l2]; [done|]. reflexivity.
  - change ((x :: y :: l1) ++ l2) with (x :: y :: (l1 ++ l2)).
    rewrite !join_cons.
    change (y :: l1 ++ l2) with ((y :: l1) ++ l2).
    rewrite IH by done. by rewrite !app_assoc_str.
Qed.

(** [split] then [join] on the same one-character separator is the
    identity. *)
Lemma join_split (sep : ascii) (s : string) :
  Py.join (String sep EmptyString) (Py.split sep s) = s.
Proof.
  induction s as [|c s IH]; [done|]. simpl.
  destruct (Ascii.eqb_spec c sep) as [->|Hne].
  - pose proof (split_nonempty sep s) as Hn.
    destruct (Py.split sep s) as [|f fs] eqn:E; [done|].
    rewrite join_cons, IH. reflexivity.
  - pose proof (split_nonempty sep s) as Hn.
    destruct (Py.split sep s) as [|f fs] eqn:E; [done|].
    destruct fs as [|g fs].
    + simpl in *. by rewrite IH.
    + rewrite join_cons in *. rewrite app_cons. by rewrite IH.
Qed.

Lemma length_split sep s :
  length (Py.split sep s) = S (Py.count sep s).
Proof.
  induction s as [|c s IH]; [done|]. simpl.
  destruct (Ascii.eqb c sep); simpl; [by rewrite IH|].
  pose proof (split_nonempty sep s) as Hn.
  destruct (Py.split sep s); [done|]. simpl in *. lia.
Qed.

(** No fragment contains the separator. *)
Lemma split_no_sep sep s f :
  f ∈ Py.split sep s → Py.count sep f = 0%nat.
Proof.
  revert f. induction s as [|c s IH]; intros f; simpl.
  - intros ->%list_elem_of_singleton. done.
  - destruct (Ascii.eqb c sep) eqn:Ec.
    + intros [->|Hin]%elem_of_cons; [done|]. by apply IH.
    + destruct (Py.split sep s) as [|g gs].
      * intros ->%list_elem_of_singleton. simpl. by rewrite Ec.
      * intros [->|Hin]%elem_of_cons.
        -- simpl. rewrite Ec. simpl. apply IH. by left.
        -- apply IH. by right.
Qed.

End strings.

(** ** [base_domain_name_guesses] *)

Section guesses.

Implicit Types d s t : string.

Lemma guesses_lookup d i s :
  base_domain_name_guesses d !! i = Some s ↔
  (i < length (Py.split "." d))%nat ∧ s = Py.join "." (drop i (Py.split "." d)).
Proof.
  unfold base_domain_name_guesses. rewrite list_lookup_fmap.
  split.
  - intros H. destruct (seq _ _ !! i) as [j|] eqn:E; [|done].
    apply lookup_seq in E as [-> Hlt]. simpl in H. by simplify_eq.
  - intros [Hlt ->]. by rewrite (lookup_seq_lt _ _ _ Hlt).
Qed.

Lemma guesses_length d :
  length (base_domain_name_guesses d) = S (Py.count "." d).
Proof.
  unfold base_domain_name_guesses.
  by rewrite length_map, length_seq, length_split.
Qed.

(** Each guess is the one before it without its first label. *)
Lemma guesses_step d i s t :
  base_domain_name_guesses d !! i = Some s →
  base_domain_name_guesses d !! S i = Some t →
  ∃ label, s = label +:+ "." +:+ t ∧ Py.count "." label = 0%nat.
Proof.
  intros [Hi ->]%guesses_lookup [HSi ->]%guesses_lookup.
  destruct (lookup_lt_is_Some_2 _ _ Hi) as [x Hx].
  destruct (lookup_lt_is_Some_2 _ _ HSi) as [y Hy].
  rewrite (drop_S _ _ _ Hx), (drop_S _ _ _ Hy).
  exists x. split; [apply join_cons|].
  eapply split_no_sep, list_elem_of_lookup_2, Hx.
Qed.

Lemma guesses_elem_of d s :
  s ∈ base_domain_name_guesses d ↔ s = d ∨ ∃ pre, d = pre +:+ "." +:+ s.
Proof.
  rewrite list_elem_of_lookup. split.
  - intros [i [Hi ->]%guesses_lookup]. destruct i as [|i].
    + left. rewrite drop_0. apply join_split.
    + right. exists (Py.join "." (take (S i) (Py.split "." d))).
      rewrite <- join_app.
      * by rewrite take_drop, join_split.
      * pose proof (split_nonempty "." d).
        by destruct (Py.split "." d).
      * intros Hnil%(f_equal length). rewrite length_drop in Hnil.
        simpl in Hnil. lia.
  - intros [->|[pre ->]].
    + exists 0%nat. apply guesses_lookup. rewrite drop_0, join_split.
      split; [|done]. rewrite length_split. lia.
    + exists (length (Py.split "." pre)). apply guesses_lookup.
      change ("." +:+ s) with (String "." s).
      rewrite split_app, drop_app_length, join_split, length_app.
      split; [|done]. rewrite (length_split _ s). lia.
Qed.

Lemma guesses_head d : head (base_domain_name_guesses d) = Some d.
Proof.
  rewrite head_lookup. apply guesses_lookup.
  rewrite drop_0, join_split, length_split. split; [lia|done].
Qed.

Lemma guesses_last d :
  last (base_domain_name_guesses d) = last (Py.split "." d).
Proof.
  rewrite !last_lookup, guesses_length, length_split. simpl.
  pose proof (length_split "." d) as Hlen.
  destruct (Py.split "." d !! Py.count "." d) as [x|] eqn:Hx.
  - apply guesses_lookup. split; [lia|].
    rewrite (drop_S _ _ _ Hx), drop_ge by lia. done.
  - apply lookup_ge_None in Hx. lia.
Qed.

End guesses.

(** C5. For every string [d], [base_domain_name_guesses d] holds exactly
    the right-aligned dot-separated suffixes of [d] (the string itself and
    whatever follows one of its dots), each guess being the previous one
    without its first label, so the most specific comes first.  Its
    length is the number of dots in [d] plus one, its first element is
    [d], its last element is the final label of [d] (the dot-free string
    that ends [d], either all of [d] or preceded by a dot).  On
    ["foo.bar.baz.example.com"] it returns the five documented guesses and
    on the empty string the one-element list of the empty string. *)
Theorem base_domain_name_guesses_spec :
  (∀ d : string,
     (∀ s, s ∈ base_domain_name_guesses d ↔
           s = d ∨ ∃ pre, d = pre +:+ "." +:+ s)
     ∧ (∀ i s t,
          base_domain_name_guesses d !! i = Some s →
          base_domain_name_guesses d !! S i = Some t →
          ∃ label, s = label +:+ "." +:+ t ∧ Py.count "." label = 0%nat)
     ∧ length (base_domain_name_guesses d) = (Py.count "." d + 1)%nat
     ∧ head (base_domain_name_guesses d) = Some d
     ∧ last (base_domain_name_guesses d) = last (Py.split "." d)
     ∧ ∃ label,
         last (base_domain_name_guesses d) = Some label
         ∧ Py.count "." label = 0%nat
         ∧ (d = label ∨ ∃ pre, d = pre +:+ "." +:+ label))
  ∧ base_domain_name_guesses "foo.bar.baz.example.com" =
      ["foo.bar.baz.example.com"; "bar.baz.example.com"; "baz.example.com";
       "example.com"; "com"]
  ∧ base_domain_name_guesses EmptyString = [EmptyString].
Proof.
  split; [|split; reflexivity].
  intros d. split; [apply guesses_elem_of|].
  split; [apply guesses_step|].
  split; [rewrite guesses_length; lia|].
  split; [apply guesses_head|].
  split; [apply guesses_last|].
  destruct (last (base_domain_name_guesses d)) as [label|] eqn:Hlast.
  - exists label. split; [done|]. split.
    + rewrite guesses_last in Hlast.
      eapply split_no_sep, list_elem_of_lookup_2.
      rewrite last_lookup in Hlast. exact Hlast.
    + rewrite last_lookup in Hlast.
      apply list_elem_of_lookup_2, guesses_elem_of in Hlast.
      destruct Hlast as [->|Hpre]; [by left|by right].
  - apply last_None in Hlast. apply (f_equal length) in Hlast.
    rewrite guesses_length in Hlast. done.
Qed.

(** C10. For every string [d], dots in any position included, every
    element of [base_domain_name_guesses d] is a suffix of [d], and each
    element is strictly longer than the one that follows it. *)
Theorem base_domain_name_guesses_suffix_decreasing (d : string) :
  (∀ s, s ∈ base_domain_name_guesses d → Py.endswith d s)
  ∧ (∀ i s t,
       base_domain_name_guesses d !! i = Some s →
       base_domain_name_guesses d !! S i = Some t →
       (String.length t < String.length s)%nat).
Proof.
  split.
  - intros s [->|[pre ->]]%guesses_elem_of.
    + by exists EmptyString.
    + exists (pre +:+ "."). by rewrite app_assoc_str.
  - intros i s t Hs Ht.
    destruct (guesses_step _ _ _ _ Hs Ht) as (label & -> & _).
    rewrite !length_app_str. simpl. lia.
Qed.

(** The guesses on strings with leading, trailing and doubled dots. *)
Example base_domain_name_guesses_dots :
  base_domain_name_guesses ".a..b." = [".a..b."; "a..b."; ".b."; "b."; EmptyString].
Proof. reflexivity. Qed.

(** ** File validation *)

Section files.

Context {B : Type}.
Implicit Types (e : Env B) (path : string) (mode : Z).

(** The test [permissions & stat.S_IRWXO] looks at the three lowest
    bits of the mode: execute, write and read for "others". *)
Lemma other_bits mode :
  (Z.land (S_IMODE mode) S_IRWXO =? 0) =
  negb (Z.testbit mode 0 || Z.testbit mode 1 || Z.testbit mode 2).
Proof.
  unfold S_IMODE, S_IRWXO.
  rewrite <- Z.land_assoc. change (Z.land 0xFFF 7) with (Z.ones 3).
  destruct (Z.eqb_spec (Z.land mode (Z.ones 3)) 0) as [H0|Hn0].
  - assert (Hb : ∀ i, 0 ≤ i < 3 → Z.testbit mode i = false).
    { intros i Hi. pose proof (f_equal (λ z, Z.testbit z i) H0) as Hi'.
      simpl in Hi'. rewrite Z.land_spec, Z.ones_spec_low, Z.bits_0 in Hi' by lia.
      by rewrite andb_true_r in Hi'. }
    rewrite !Hb by lia. done.
  - destruct (Z.testbit mode 0) eqn:E0; [done|].
    destruct (Z.testbit mode 1) eqn:E1; [done|].
    destruct (Z.testbit mode 2) eqn:E2; [done|].
    exfalso. apply Hn0. apply Z.bits_inj'. intros i Hi.
    rewrite Z.land_spec, Z.bits_0.
    destruct (decide (i < 3)) as [Hlt|Hge].
    + assert (i = 0 ∨ i = 1 ∨ i = 2) as [->|[->| ->]] by lia;
        by rewrite ?E0, ?E1, ?E2.
    + rewrite Z.ones_spec_high by lia. apply andb_false_r.
Qed.

Lemma validate_file_permissions_raises path e x :
  validate_file (fs e) path = Raise x →
  validate_file_permissions path e = (Raise x, e).
Proof.
  intros H. unfold validate_file_permissions, mbind, M_bind, gets, lift_result.
  simpl. by rewrite H.
Qed.

Lemma validate_file_ok path e mode :
  os_stat (fs e) path = Some mode → S_ISREG mode = true →
  validate_file (fs e) path = Ok tt.
Proof.
  intros Hs Hr. unfold validate_file, os_path_exists, os_path_isfile.
  by rewrite Hs, Hr.
Qed.

End files.

(** C6. [validate_file_permissions] validates the file first, so whatever
    [validate_file] raises is raised, with nothing logged: on a path that
    does not exist, "File not found", and on a path that exists but is not
    a regular file (a directory, for one), "Path is not a file".  On a
    regular file whose mode grants "others" any of read, write or execute
    it returns normally, having logged one warning that names the file. *)
Theorem validate_file_permissions_spec {B} (path : string) (e : Env B) :
  (∀ x, validate_file (fs e) path = Raise x →
        validate_file_permissions path e = (Raise x, e))
  ∧ (os_stat (fs e) path = None →
     validate_file_permissions path e =
       (Raise (PluginError ("File not found: " +:+ path)), e))
  ∧ (∀ mode, os_stat (fs e) path = Some mode → S_ISREG mode = false →
     validate_file_permissions path e =
       (Raise (PluginError ("Path is not a file: " +:+ path)), e))
  ∧ (∀ mode, os_stat (fs e) path = Some mode → S_IFMT mode = S_IFDIR →
     validate_file_permissions path e =
       (Raise (PluginError ("Path is not a file: " +:+ path)), e))
  ∧ (∀ mode,
       os_stat (fs e) path = Some mode → os_lstat (fs e) path = Some mode →
       S_ISREG mode = true →
       Z.testbit mode 2 || Z.testbit mode 1 || Z.testbit mode 0 = true →
       ∃ msg,
         validate_file_permissions path e =
           (Ok tt, {| config := config e; fs := fs e; answers := answers e;
                      warnings := warnings e ++ [msg];
                      provider := provider e |})
         ∧ Py.contains msg path).
Proof.
  assert (Hnotfile : ∀ mode, os_stat (fs e) path = Some mode →
            S_ISREG mode = false →
            validate_file (fs e) path =
              Raise (PluginError ("Path is not a file: " +:+ path))).
  { intros mode Hs Hr. unfold validate_file, os_path_exists, os_path_isfile.
    by rewrite Hs, Hr. }
  split; [apply validate_file_permissions_raises|].
  split.
  { intros Hs. apply validate_file_permissions_raises.
    unfold validate_file, os_path_exists. by rewrite Hs. }
  split.
  { intros mode Hs Hr. eapply validate_file_permissions_raises, Hnotfile; done. }
  split.
  { intros mode Hs Hd. eapply validate_file_permissions_raises, Hnotfile; [done|].
    unfold S_ISREG. rewrite Hd. done. }
  intros mode Hs Hl Hr Hbits.
  exists ("Unsafe permissions on credentials configuration file: " +:+ path).
  split; [|by exists "Unsafe permissions on credentials configuration file: ", EmptyString;
            rewrite app_empty_r].
  unfold validate_file_permissions, mbind, M_bind, gets, lift_result. simpl.
  rewrite (validate_file_ok _ _ _ Hs Hr), Hl, other_bits.
  replace (Z.testbit mode 0 || Z.testbit mode 1 || Z.testbit mode 2)
    with true by (destruct (Z.testbit mode 0), (Z.testbit mode 1),
                    (Z.testbit mode 2); done).
  reflexivity.
Qed.

(** ** [CredentialsConfiguration.require] *)

Section require.

Import CredentialsConfiguration.

Implicit Types (self : CredentialsConfiguration) (d : dict).

Lemma contains_refl (x : string) : Py.contains x x.
Proof. exists EmptyString, EmptyString. by rewrite app_empty_r. Qed.

Lemma contains_app_r (a b x : string) :
  Py.contains b x → Py.contains (a +:+ b) x.
Proof.
  intros (pre & post & ->). exists (a +:+ pre), post.
  by rewrite app_assoc_str.
Qed.

Lemma contains_app_l (a b x : string) :
  Py.contains a x → Py.contains (a +:+ b) x.
Proof.
  intros (pre & post & ->). exists pre, (post +:+ b).
  by rewrite !app_assoc_str.
Qed.

Lemma contains_join (sep x : string) (l : list string) :
  x ∈ l → Py.contains (Py.join sep l) x.
Proof.
  induction l as [|y l IH]; [by intros ?%elem_of_nil|].
  intros Hin. destruct l as [|z l].
  - apply list_elem_of_singleton in Hin as ->. apply contains_refl.
  - rewrite join_cons. apply elem_of_cons in Hin as [->|Hin].
    + apply contains_app_l, contains_refl.
    + by apply contains_app_r, contains_app_r, IH.
Qed.

Lemma dict_getitem_elem_of d k v :
  NoDup (dict_keys d) → (k, v) ∈ d → dict_getitem d k = Some v.
Proof.
  unfold dict_keys. induction d as [|[k' v'] d IH]; simpl.
  - by intros _ ?%elem_of_nil.
  - intros [Hk' Hnd]%NoDup_cons [Heq|Hin]%elem_of_cons.
    + simplify_eq. by rewrite String.eqb_refl.
    + destruct (String.eqb_spec k' k) as [->|Hne]; [|by apply IH].
      exfalso. apply Hk'. apply list_elem_of_fmap. by exists (k, v).
Qed.

(** What the loop of [require] adds to [messages] for one variable. *)
Lemma require_loop_app self d (vars : dict) messages :
  (∀ k v, (k, v) ∈ vars → dict_getitem d k = Some v) →
  require_loop self d (dict_keys vars) messages =
    Ok (messages ++
        omap (λ '(k, v),
                if negb (_has self k)
                then Some (not_found_message (mapper self k) v)
                else if negb (truthy_get (_get self k))
                then Some (not_set_message (mapper self k) v)
                else None) vars).
Proof.
  revert messages. induction vars as [|[k v] vars IH]; intros messages Hget.
  - simpl. by rewrite app_nil_r.
  - simpl. rewrite (Hget k v) by left.
    assert (Hrest : ∀ k0 v0, (k0, v0) ∈ vars → dict_getitem d k0 = Some v0)
      by (intros ???; apply Hget; by right).
    destruct (negb (_has self k)).
    + rewrite (IH _ Hrest). by rewrite <- app_assoc.
    + destruct (negb (truthy_get (_get self k))).
      * rewrite (IH _ Hrest). by rewrite <- app_assoc.
      * by apply IH.
Qed.

End require.

Section require_message.

Import CredentialsConfiguration.

Implicit Types (self : CredentialsConfiguration) (d : dict).

(** [require] as one expression: the messages of the failing variables,
    in the order of the dict, under one header. *)
Lemma require_eq self d :
  NoDup (dict_keys d) →
  require self d =
    match omap (λ '(k, v),
                  if negb (_has self k)
                  then Some (not_found_message (mapper self k) v)
                  else if negb (truthy_get (_get self k))
                  then Some (not_set_message (mapper self k) v)
                  else None) d with
    | [] => Ok tt
    | m :: ms => Raise (PluginError (missing_message self (m :: ms)))
    end.
Proof.
  intros Hnd. unfold require.
  rewrite require_loop_app by (intros ???; by apply dict_getitem_elem_of).
  rewrite app_nil_l. by destruct (omap _ d).
Qed.

Lemma missing_message_filename self messages :
  Py.contains (missing_message self messages) (filename self).
Proof.
  unfold missing_message.
  do 3 apply contains_app_r. apply contains_app_l, contains_refl.
Qed.

Lemma missing_message_elem_of self messages m :
  m ∈ messages → Py.contains (missing_message self messages) m.
Proof.
  intros Hin. unfold missing_message.
  do 7 apply contains_app_r. by apply contains_join.
Qed.

End require_message.

(** C4. For every dict of required variables (its keys distinct, as in
    any dict), [require] looks every key up through the mapper.  If every
    key is present with a non-empty value it returns without error.  If
    some key is missing or empty it raises one [PluginError] whose message
    contains the file name and, for every missing key, its "not found"
    line and, for every empty key, its "not set" line, each with the
    mapped name and the description: the first failure does not stop the
    check. *)
Theorem require_spec (self : CredentialsConfiguration) (d : dict) :
  NoDup (dict_keys d) →
  ((∀ k v, (k, v) ∈ d →
      ∃ x, confobj self !! mapper self k = Some x ∧ x ≠ EmptyString) →
   CredentialsConfiguration.require self d = Ok tt)
  ∧ ((∃ k v, (k, v) ∈ d ∧
        (confobj self !! mapper self k = None ∨
         confobj self !! mapper self k = Some EmptyString)) →
     ∃ msg,
       CredentialsConfiguration.require self d = Raise (PluginError msg)
       ∧ Py.contains msg (filename self)
       ∧ (∀ k v, (k, v) ∈ d → confobj self !! mapper self k = None →
            Py.contains msg
              ("Property " +:+ dquote +:+ mapper self k +:+ dquote +:+
               " not found (should be " +:+ v +:+ ")."))
       ∧ (∀ k v, (k, v) ∈ d → confobj self !! mapper self k = Some EmptyString →
            Py.contains msg
              ("Property " +:+ dquote +:+ mapper self k +:+ dquote +:+
               " not set (should be " +:+ v +:+ ")."))).
Proof.
  intros Hnd. rewrite (require_eq _ _ Hnd).
  set (F := λ '(k, v), _).
  assert (Hnone : ∀ k v, (k, v) ∈ d → confobj self !! mapper self k = None →
            CredentialsConfiguration.not_found_message (mapper self k) v
              ∈ omap F d).
  { intros k v Hin Hk. apply list_elem_of_omap. exists (k, v). split; [done|].
    simpl. unfold CredentialsConfiguration._has. by rewrite Hk. }
  assert (Hempty : ∀ k v, (k, v) ∈ d → confobj self !! mapper self k = Some EmptyString →
            CredentialsConfiguration.not_set_message (mapper self k) v
              ∈ omap F d).
  { intros k v Hin Hk. apply list_elem_of_omap. exists (k, v). split; [done|].
    simpl. unfold CredentialsConfiguration._has, CredentialsConfiguration._get.
    by rewrite Hk. }
  split.
  - intros Hall.
    destruct (omap F d) as [|m ms] eqn:E; [done|]. exfalso.
    assert (Hm : m ∈ omap F d) by (rewrite E; left).
    apply list_elem_of_omap in Hm as ([k v] & Hin & Hm).
    destruct (Hall k v Hin) as (x & Hx & Hne). simpl in Hm.
    unfold CredentialsConfiguration._has, CredentialsConfiguration._get in Hm.
    rewrite Hx in Hm. simpl in Hm.
    destruct (String.eqb_spec x EmptyString); [done|]. simpl in Hm. done.
  - intros (k & v & Hin & Hbad).
    destruct (omap F d) as [|m ms] eqn:E.
    { destruct Hbad as [Hk|Hk].
      - by apply (Hnone k v Hin), elem_of_nil in Hk.
      - by apply (Hempty k v Hin), elem_of_nil in Hk. }
    eexists. split; [done|].
    split; [apply missing_message_filename|].
    split; intros k' v' Hin' Hk'; apply missing_message_elem_of.
    + by apply Hnone.
    + by apply Hempty.
Qed.

(** ** [DNSAuthenticator.perform] and [DNSAuthenticator.cleanup] *)

Section authenticator.

Context {K R B : Type} `{!DNSProvider B}.
Context (dest : string → string).

Implicit Types (self : Authenticator B) (e : Env B).
Implicit Types (achall : AnnotatedChallenge K R).
Implicit Types (achalls : list (AnnotatedChallenge K R)).

Local Ltac run :=
  unfold mbind, M_bind, mret, M_ret, observe, with_env, set_attempt_cleanup,
    modify, gets, raise; simpl.

(** The loop of [perform] when every create succeeds. *)
Lemma perform_loop_ok achalls : ∀ responses flag e calls0 e',
  all_succeed create_record achalls e = Some e' →
  perform_loop achalls responses
    {| _attempt_cleanup := flag; env := e; calls := calls0 |} =
  (Ok (responses ++ map (λ a, response a (account_key a)) achalls),
   {| _attempt_cleanup := flag; env := e';
      calls := calls0 ++ map (created true) achalls |}).
Proof.
  induction achalls as [|achall achalls IH]; intros responses flag e calls0 e'.
  - simpl. intros [= <-]. by rewrite !app_nil_r.
  - simpl. unfold create_record at 1. run.
    destruct (_perform _ _ _ e) as [[[]|x] e1]; [|done].
    intros Hrest. rewrite (IH _ _ _ _ _ Hrest). simpl.
    by rewrite <- !app_assoc.
Qed.

(** The loop of [perform] when the create after [pre] raises. *)
Lemma perform_loop_raise pre : ∀ achall post responses flag e calls0 e' e'' x,
  all_succeed create_record pre e = Some e' →
  create_record achall e' = (Raise x, e'') →
  perform_loop (pre ++ achall :: post) responses
    {| _attempt_cleanup := flag; env := e; calls := calls0 |} =
  (Raise x,
   {| _attempt_cleanup := flag; env := e'';
      calls := calls0 ++ map (created true) pre ++ [created false achall] |}).
Proof.
  induction pre as [|a pre IH];
    intros achall post responses flag e calls0 e' e'' x.
  - simpl. intros [= <-]. unfold create_record. run. by intros ->.
  - simpl. unfold create_record at 1. run.
    destruct (_perform _ _ _ e) as [[[]|y] e1]; [|done].
    intros Hpre Hfail. rewrite (IH _ _ _ _ _ _ _ _ _ Hpre Hfail). simpl.
    by rewrite <- !app_assoc.
Qed.

(** The loop of [cleanup] when every delete succeeds. *)
Lemma cleanup_loop_ok achalls : ∀ flag e calls0 e',
  all_succeed delete_record achalls e = Some e' →
  cleanup_loop achalls
    {| _attempt_cleanup := flag; env := e; calls := calls0 |} =
  (Ok tt,
   {| _attempt_cleanup := flag; env := e';
      calls := calls0 ++ map (deleted true) achalls |}).
Proof.
  induction achalls as [|achall achalls IH]; intros flag e calls0 e'.
  - simpl. intros [= <-]. by rewrite !app_nil_r.
  - simpl. unfold delete_record at 1. run.
    destruct (_cleanup _ _ _ e) as [[[]|x] e1]; [|done].
    intros Hrest. rewrite (IH _ _ _ _ Hrest). simpl.
    by rewrite <- !app_assoc.
Qed.

(** The loop of [cleanup] when the delete after [pre] raises. *)
Lemma cleanup_loop_raise pre : ∀ achall post flag e calls0 e' e'' x,
  all_succeed delete_record pre e = Some e' →
  delete_record achall e' = (Raise x, e'') →
  cleanup_loop (pre ++ achall :: post)
    {| _attempt_cleanup := flag; env := e; calls := calls0 |} =
  (Raise x,
   {| _attempt_cleanup := flag; env := e'';
      calls := calls0 ++ map (deleted true) pre ++ [deleted false achall] |}).
Proof.
  induction pre as [|a pre IH]; intros achall post flag e calls0 e' e'' x.
  - simpl. intros [= <-]. unfold delete_record. run. by intros ->.
  - simpl. unfold delete_record at 1. run.
    destruct (_cleanup _ _ _ e) as [[[]|y] e1]; [|done].
    intros Hpre Hfail. rewrite (IH _ _ _ _ _ _ _ _ Hpre Hfail). simpl.
    by rewrite <- !app_assoc.
Qed.

(** Neither loop writes [_attempt_cleanup]. *)
Lemma perform_loop_flag achalls : ∀ responses self,
  _attempt_cleanup (perform_loop achalls responses self).2 =
  _attempt_cleanup self.
Proof.
  induction achalls as [|achall achalls IH]; intros responses self; [done|].
  simpl. run. destruct (_perform _ _ _ (env self)) as [[[]|x] e1]; [|done].
  by rewrite IH.
Qed.

Lemma cleanup_loop_flag achalls : ∀ self,
  _attempt_cleanup (cleanup_loop achalls self).2 = _attempt_cleanup self.
Proof.
  induction achalls as [|achall achalls IH]; intros self; [done|].
  simpl. run. destruct (_cleanup _ _ _ (env self)) as [[[]|x] e1]; [|done].
  by rewrite IH.
Qed.

Lemma cleanup_flag achalls self :
  _attempt_cleanup (cleanup achalls self).2 = _attempt_cleanup self.
Proof.
  unfold cleanup. run. destruct (_attempt_cleanup self) eqn:E; [|done].
  by rewrite cleanup_loop_flag.
Qed.

Lemma cleanup_not_attempted achalls self :
  _attempt_cleanup self = false → cleanup achalls self = (Ok tt, self).
Proof. intros H. unfold cleanup. run. by rewrite H. Qed.

(** [perform] up to the loop: a failed [_setup_credentials] leaves the
    flag as it was, a successful one sets it. *)
Lemma perform_setup_raises achalls self x e1 :
  _setup_credentials (env self) = (Raise x, e1) →
  perform dest achalls self =
    (Raise x, {| _attempt_cleanup := _attempt_cleanup self; env := e1;
                 calls := calls self ++ [CallSetupCredentials false] |}).
Proof. intros H. unfold perform. run. by rewrite H. Qed.

Lemma perform_flag_set achalls self e1 :
  _setup_credentials (env self) = (Ok tt, e1) →
  _attempt_cleanup (perform dest achalls self).2 = true.
Proof.
  intros H. unfold perform. run. rewrite H. simpl.
  match goal with |- context [perform_loop achalls [] ?s] =>
    pose proof (perform_loop_flag achalls [] s) as Hflag;
    destruct (perform_loop achalls [] s) as [[rs|x] s'] end;
    simpl in *; [|done].
  destruct (default VNone _) as [| |n]; try done.
  unfold sleep. run. by destruct (n <? 0).
Qed.

End authenticator.

(** ** The contract of [perform] *)

Section contract.

Context {K R B : Type} `{!DNSProvider B}.
Context (dest : string → string).

Implicit Types (self : Authenticator B) (e : Env B).
Implicit Types (achall : AnnotatedChallenge K R).
Implicit Types (achalls : list (AnnotatedChallenge K R)).

Local Ltac run :=
  unfold mbind, M_bind, mret, M_ret, observe, with_env, set_attempt_cleanup,
    modify, gets, raise; simpl.

(** [perform] when [_setup_credentials] and every create succeed: what is
    left is the read of [propagation-seconds] and the sleep. *)
Lemma perform_creates_ok self achalls e1 e2 :
  _setup_credentials (env self) = (Ok tt, e1) →
  all_succeed create_record achalls e1 = Some e2 →
  perform dest achalls self =
    (secs ← with_env (conf dest "propagation-seconds");
     sleep secs;;
     mret (map (λ a, response a (account_key a)) achalls))
      {| _attempt_cleanup := true; env := e2;
         calls := calls self ++
                  CallSetupCredentials true :: map (created true) achalls |}.
Proof.
  intros Hsetup Hall. unfold perform. run. rewrite Hsetup. simpl.
  rewrite (perform_loop_ok _ _ _ _ _ _ Hall). simpl.
  by rewrite <- app_assoc.
Qed.

(** C1. On a sequence of challenges for which the provider's
    [_setup_credentials] and every [_perform] succeed, with a non-negative
    integer configured as [propagation-seconds], [perform] calls
    [_perform] exactly once per challenge, in input order, and returns
    one response per challenge, the i-th response being the one of the
    i-th challenge. *)
Theorem perform_creates_in_order self achalls e1 e2 n :
  _setup_credentials (env self) = (Ok tt, e1) →
  all_succeed create_record achalls e1 = Some e2 →
  config e2 !! dest "propagation-seconds" = Some (VInt n) →
  0 ≤ n →
  ∃ responses,
    perform dest achalls self =
      (Ok responses,
       {| _attempt_cleanup := true; env := e2;
          calls := calls self ++
                   CallSetupCredentials true ::
                   map (created true) achalls ++ [CallSleep n] |})
    ∧ length responses = length achalls
    ∧ ∀ i achall, achalls !! i = Some achall →
        responses !! i = Some (response achall (account_key achall)).
Proof.
  intros Hsetup Hall Hconf Hn.
  exists (map (λ a, response a (account_key a)) achalls).
  split; [|split].
  - rewrite (perform_creates_ok _ _ _ _ Hsetup Hall).
    unfold conf. run. rewrite Hconf. simpl. unfold sleep.
    destruct (Z.ltb_spec n 0) as [?|_]; [lia|]. run.
    by rewrite <- app_assoc.
  - apply length_map.
  - intros i achall Hi. by rewrite list_lookup_fmap, Hi.
Qed.

(** C2. [perform] sets [_attempt_cleanup] once [_setup_credentials] has
    returned and before the loop, so it is set however the loop ends.
    When the creates for the challenges [pre] succeed and the create for
    the next challenge (the k-th, with k - 1 the length of [pre]) raises,
    [perform] raises that exception and returns no responses, exactly the
    k - 1 creates of [pre] have succeeded, nothing was called after the
    failed one, and [_attempt_cleanup] is set. *)
Theorem perform_create_raises self pre achall post e1 e2 e3 x :
  _setup_credentials (env self) = (Ok tt, e1) →
  all_succeed create_record pre e1 = Some e2 →
  create_record achall e2 = (Raise x, e3) →
  perform dest (pre ++ achall :: post) self =
    (Raise x,
     {| _attempt_cleanup := true; env := e3;
        calls := calls self ++
                 CallSetupCredentials true ::
                 map (created true) pre ++ [created false achall] |})
  ∧ ∀ achalls, _attempt_cleanup (perform dest achalls self).2 = true.
Proof.
  intros Hsetup Hpre Hfail. split.
  - unfold perform. run. rewrite Hsetup. simpl.
    rewrite (perform_loop_raise _ _ _ _ _ _ _ _ _ _ Hpre Hfail). simpl.
    by rewrite <- app_assoc.
  - intros achalls. by eapply perform_flag_set.
Qed.

(** C7. [propagation-seconds] is declared as an integer argument with
    default 10 and holds what the user configured otherwise.  When
    [_setup_credentials] and every create have succeeded, [perform] sleeps
    for that number of seconds after the last create and before it
    returns the responses; the number has to be non-negative, for on a
    negative one the sleep raises and no responses are returned. *)
Theorem perform_sleeps_propagation_seconds :
  (∃ help,
     add_parser_arguments (λ a, modify (λ declared, declared ++ [a])) [] =
       (Ok tt, [{| arg_name := "propagation-seconds"; arg_default := VInt 10;
                   arg_type := type_int; arg_help := help |}]))
  ∧ (add_parser_arguments (parser_add dest ∅) ∅).2
       !! dest "propagation-seconds" = Some (VInt 10)
  ∧ (∀ given v, given !! "propagation-seconds" = Some v →
       (add_parser_arguments (parser_add dest given) ∅).2
         !! dest "propagation-seconds" = Some v)
  ∧ ∀ self achalls e1 e2 n,
      _setup_credentials (env self) = (Ok tt, e1) →
      all_succeed create_record achalls e1 = Some e2 →
      config e2 !! dest "propagation-seconds" = Some (VInt n) →
      (0 ≤ n →
       perform dest achalls self =
         (Ok (map (λ a, response a (account_key a)) achalls),
          {| _attempt_cleanup := true; env := e2;
             calls := calls self ++
                      CallSetupCredentials true ::
                      map (created true) achalls ++ [CallSleep n] |}))
      ∧ (n < 0 →
         perform dest achalls self =
           (Raise (ValueError "sleep length must be non-negative"),
            {| _attempt_cleanup := true; env := e2;
               calls := calls self ++
                        CallSetupCredentials true ::
                        map (created true) achalls |})).
Proof.
  split; [by eexists|].
  split; [unfold add_parser_arguments, parser_add, modify; simpl;
          by rewrite lookup_insert_eq|].
  split.
  { intros given v Hv. unfold add_parser_arguments, parser_add, modify. simpl.
    by rewrite lookup_insert_eq, Hv. }
  intros self achalls e1 e2 n Hsetup Hall Hconf.
  rewrite (perform_creates_ok _ _ _ _ Hsetup Hall).
  unfold conf. run. rewrite Hconf. simpl. unfold sleep.
  split; intros Hn.
  - destruct (Z.ltb_spec n 0) as [?|_]; [lia|]. run. by rewrite <- app_assoc.
  - destruct (Z.ltb_spec n 0) as [_|?]; [|lia]. by run.
Qed.

(** C9, as the code has it.  [perform] on no challenges still calls
    [_setup_credentials].  If that raises, the exception propagates and
    nothing else happens: [_attempt_cleanup] is left as it was, there is
    no sleep and nothing is returned.  If it returns, [perform] makes no
    create and sets [_attempt_cleanup], whatever happens next; it then
    sleeps for the (non-negative) propagation delay and returns no
    responses, and a [cleanup] that follows does call the provider for
    each of its challenges, although no record was created. *)
Theorem perform_no_challenges self :
  (∀ x e1,
     _setup_credentials (env self) = (Raise x, e1) →
     perform dest (@nil (AnnotatedChallenge K R)) self =
       (Raise x, {| _attempt_cleanup := _attempt_cleanup self; env := e1;
                    calls := calls self ++ [CallSetupCredentials false] |}))
  ∧ (∀ e1 n,
       _setup_credentials (env self) = (Ok tt, e1) →
       config e1 !! dest "propagation-seconds" = Some (VInt n) →
       0 ≤ n →
       perform dest (@nil (AnnotatedChallenge K R)) self =
         (Ok (@nil R), {| _attempt_cleanup := true; env := e1;
                    calls := calls self ++
                             [CallSetupCredentials true; CallSleep n] |})
       ∧ ∀ achalls e2,
           all_succeed delete_record achalls e1 = Some e2 →
           cleanup achalls (perform dest (@nil (AnnotatedChallenge K R)) self).2 =
             (Ok tt,
              {| _attempt_cleanup := true; env := e2;
                 calls := (calls self ++
                           [CallSetupCredentials true; CallSleep n]) ++
                          map (deleted true) achalls |}))
  ∧ (∀ e1,
       _setup_credentials (env self) = (Ok tt, e1) →
       _attempt_cleanup
         (perform dest (@nil (AnnotatedChallenge K R)) self).2 = true).
Proof.
  split; [intros x e1; apply perform_setup_raises|].
  split; [|intros e1 Hsetup; by eapply perform_flag_set].
  intros e1 n Hsetup Hconf Hn.
  assert (Hperform : perform dest (@nil (AnnotatedChallenge K R)) self =
            (Ok (@nil R), {| _attempt_cleanup := true; env := e1;
                       calls := calls self ++
                                [CallSetupCredentials true; CallSleep n] |})).
  { rewrite (perform_creates_ok _ [] _ e1 Hsetup eq_refl).
    unfold conf. run. rewrite Hconf. simpl. unfold sleep.
    destruct (Z.ltb_spec n 0) as [?|_]; [lia|]. run. by rewrite <- app_assoc. }
  split; [done|].
  intros achalls e2 Hall. rewrite Hperform. unfold cleanup. run.
  by apply cleanup_loop_ok.
Qed.

End contract.

(** ** The contract of [cleanup] *)

Section cleanup_contract.

Context {K R B : Type} `{!DNSProvider B}.
Context (dest : string → string).

Implicit Types (self : Authenticator B) (e : Env B).
Implicit Types (achalls : list (AnnotatedChallenge K R)).
Implicit Types (achall : AnnotatedChallenge K R).
Implicit Types (pre post : list (AnnotatedChallenge K R)).
Implicit Types (history : list (@method_call K R)) (c : @method_call K R).

Lemma invoke_all_snoc history c self :
  invoke_all dest (history ++ [c]) self =
  invoke dest (invoke_all dest history self) c.
Proof. unfold invoke_all. by rewrite foldl_app. Qed.

(** What one method call does to [_attempt_cleanup]: only a [perform]
    whose [_setup_credentials] returned sets it, nothing clears it. *)
Lemma invoke_flag self c :
  _attempt_cleanup (invoke dest self c) =
  match c with
  | do_perform _ =>
      is_ok (_setup_credentials (env self)).1 || _attempt_cleanup self
  | do_cleanup _ => _attempt_cleanup self
  end.
Proof.
  destruct c as [achalls|achalls]; simpl; [|apply cleanup_flag].
  destruct (_setup_credentials (env self)) as [[[]|x] e1] eqn:Hsetup; simpl.
  - by eapply perform_flag_set.
  - by rewrite (perform_setup_raises dest achalls self x e1 Hsetup).
Qed.

Lemma invoke_all_flag_stays history : ∀ self,
  _attempt_cleanup self = true →
  _attempt_cleanup (invoke_all dest history self) = true.
Proof.
  induction history as [|c history IH]; intros self Hflag; [done|].
  simpl. apply IH. rewrite invoke_flag, Hflag. destruct c; [|done].
  apply orb_true_r.
Qed.

(** [_attempt_cleanup] is set exactly on the instances on which some
    [perform] got past [_setup_credentials]. *)
Lemma attempt_cleanup_iff history e :
  _attempt_cleanup (invoke_all dest history (new e)) = true ↔
  ∃ before achalls after,
    history = before ++ do_perform achalls :: after
    ∧ (_setup_credentials (env (invoke_all dest before (new e)))).1 = Ok tt.
Proof.
  split.
  - induction history as [|c history IH] using rev_ind; [done|].
    rewrite invoke_all_snoc, invoke_flag.
    assert (Hold : _attempt_cleanup (invoke_all dest history (new e)) = true →
              ∃ before achalls after,
                history ++ [c] = before ++ do_perform achalls :: after
                ∧ (_setup_credentials
                     (env (invoke_all dest before (new e)))).1 = Ok tt).
    { intros (before & achalls & after & -> & Hok)%IH.
      exists before, achalls, (after ++ [c]). by rewrite <- app_assoc. }
    destruct c as [achalls|achalls]; [|done].
    intros [Hok|Hflag]%orb_true_iff; [|by apply Hold].
    exists history, achalls, []. split; [done|].
    by destruct (_setup_credentials _) as [[[]|x] e1].
  - intros (before & achalls & after & -> & Hok).
    unfold invoke_all. rewrite foldl_app. simpl.
    apply invoke_all_flag_stays.
    change (perform dest achalls ?s).2 with (invoke dest s (do_perform achalls)).
    rewrite invoke_flag. unfold invoke_all in Hok. by rewrite Hok.
Qed.

(** C3, as the code has it.  [cleanup] on an instance whose
    [_attempt_cleanup] is not set calls nothing and changes nothing; that
    is so on an instance whose [perform] was never called, and the flag is
    set exactly when some [perform] got past [_setup_credentials].  With
    the flag set, [cleanup] calls [_cleanup] once per challenge, in input
    order, as long as each call returns; a call that raises ends the loop
    and the exception propagates.  [cleanup] never changes the flag, so it
    can be called any number of times. *)
Theorem cleanup_follows_attempt_cleanup :
  (∀ self achalls,
     _attempt_cleanup self = false → cleanup achalls self = (Ok tt, self))
  ∧ (∀ history e,
       Forall (λ c, is_perform c = false) history →
       invoke_all dest history (new e) = new e)
  ∧ (∀ history e,
       _attempt_cleanup (invoke_all dest history (new e)) = true ↔
       ∃ before achalls after,
         history = before ++ do_perform achalls :: after
         ∧ (_setup_credentials
              (env (invoke_all dest before (new e)))).1 = Ok tt)
  ∧ (∀ self achalls e',
       _attempt_cleanup self = true →
       all_succeed delete_record achalls (env self) = Some e' →
       cleanup achalls self =
         (Ok tt, {| _attempt_cleanup := true; env := e';
                    calls := calls self ++ map (deleted true) achalls |}))
  ∧ (∀ self pre achall post e' e'' x,
       _attempt_cleanup self = true →
       all_succeed delete_record pre (env self) = Some e' →
       delete_record achall e' = (Raise x, e'') →
       cleanup (pre ++ achall :: post) self =
         (Raise x, {| _attempt_cleanup := true; env := e'';
                      calls := calls self ++ map (deleted true) pre ++
                               [deleted false achall] |}))
  ∧ (∀ self achalls,
       _attempt_cleanup (cleanup achalls self).2 = _attempt_cleanup self).
Proof.
  split; [intros self achalls; apply cleanup_not_attempted|].
  split.
  { intros history e Hall. induction Hall as [|c history Hc _ IH]; [done|].
    destruct c as [achalls|achalls]; [done|]. exact IH. }
  split; [apply attempt_cleanup_iff|].
  split.
  { intros [flag e calls0] achalls e'. simpl. intros -> Hall.
    unfold cleanup, mbind, M_bind, gets. simpl. by apply cleanup_loop_ok. }
  split; [|intros self achalls; apply cleanup_flag].
  intros [flag e calls0] pre achall post e' e'' x. simpl. intros -> Hpre Hfail.
  unfold cleanup, mbind, M_bind, gets. simpl.
  by eapply cleanup_loop_raise.
Qed.

End cleanup_contract.

(** ** [DNSAuthenticator._configure_credentials] *)

Section credentials.

Context {B : Type}.
Context (dest : string → string) (expanduser abspath : string → string).

Implicit Types (e : Env B) (d : dict).

(** [require] either returns or raises a [PluginError]; it returns exactly
    when every required key is present with a non-empty value. *)
Lemma require_ok_iff (self : CredentialsConfiguration) d :
  NoDup (dict_keys d) →
  (CredentialsConfiguration.require self d = Ok tt ↔
   ∀ k v, (k, v) ∈ d →
     ∃ x, confobj self !! mapper self k = Some x ∧ x ≠ EmptyString)
  ∧ (CredentialsConfiguration.require self d = Ok tt ∨
     ∃ msg, CredentialsConfiguration.require self d = Raise (PluginError msg)).
Proof.
  intros Hnd. rewrite (require_eq _ _ Hnd). set (F := λ '(k, v), _).
  split; [|destruct (omap F d); eauto].
  split.
  - intros Hok k v Hin.
    destruct (omap F d) as [|m ms] eqn:E; [|done].
    destruct (F (k, v)) as [m|] eqn:Hm.
    { assert (m ∈ omap F d) as Hbad by (apply list_elem_of_omap; eauto).
      rewrite E in Hbad. by apply elem_of_nil in Hbad. }
    simpl in Hm.
    unfold CredentialsConfiguration._has, CredentialsConfiguration._get in Hm.
    destruct (confobj self !! mapper self k) as [x|]; [|done].
    exists x. split; [done|]. simpl in Hm.
    destruct (String.eqb_spec x EmptyString); [done|done].
  - intros Hall. destruct (omap F d) as [|m ms] eqn:E; [done|]. exfalso.
    assert (Hm : m ∈ omap F d) by (rewrite E; left).
    apply list_elem_of_omap in Hm as ([k v] & Hin & Hm).
    destruct (Hall k v Hin) as (x & Hx & Hne). simpl in Hm.
    unfold CredentialsConfiguration._has, CredentialsConfiguration._get in Hm.
    rewrite Hx in Hm. simpl in Hm.
    destruct (String.eqb_spec x EmptyString); [done|]. simpl in Hm. done.
Qed.

(** C8. [_configure_credentials] with [required_variables] absent or empty
    is [_configure_file] followed by the construction of the
    [CredentialsConfiguration] from the configured path, and nothing else;
    with a non-empty dict, [require] is run on the result before it is
    returned.  So when the configured path is a readable regular file, the
    first two return the configuration of that file whatever keys it
    holds, and the last returns it exactly when every required key is
    present and non-empty and raises [require]'s error otherwise. *)
Theorem configure_credentials_required_variables (key label : string) e :
  let load : M (Env B) CredentialsConfiguration :=
    _configure_file dest expanduser abspath key label;;
    path ← conf dest key ≫= as_path;
    CredentialsConfiguration.__init__ path dest in
  _configure_credentials dest expanduser abspath key label None e = load e
  ∧ _configure_credentials dest expanduser abspath key label (Some []) e =
      load e
  ∧ (∀ d, d ≠ [] →
       _configure_credentials dest expanduser abspath key label (Some d) e =
         (credentials_configuration ← load;
          lift_result
            (CredentialsConfiguration.require credentials_configuration d);;
          mret credentials_configuration) e)
  ∧ (∀ path mode parsed,
       config e !! dest key = Some (VStr path) → path ≠ EmptyString →
       os_stat (fs e) path = Some mode → os_lstat (fs e) path = Some mode →
       S_ISREG mode = true →
       configobj_parse (fs e) path = Some parsed →
       let credentials_configuration :=
         {| filename := path; confobj := parsed; mapper := dest |} in
       ∃ e',
         validate_file_permissions path e = (Ok tt, e')
         ∧ _configure_credentials dest expanduser abspath key label None e =
             (Ok credentials_configuration, e')
         ∧ _configure_credentials dest expanduser abspath key label
             (Some []) e = (Ok credentials_configuration, e')
         ∧ ∀ d, d ≠ [] → NoDup (dict_keys d) →
             ((∀ k v, (k, v) ∈ d →
                 ∃ x, parsed !! dest k = Some x ∧ x ≠ EmptyString) →
              _configure_credentials dest expanduser abspath key label
                (Some d) e = (Ok credentials_configuration, e'))
             ∧ ((∃ k v, (k, v) ∈ d ∧
                   (parsed !! dest k = None ∨
                    parsed !! dest k = Some EmptyString)) →
                ∃ msg,
                  _configure_credentials dest expanduser abspath key label
                    (Some d) e = (Raise (PluginError msg), e'))).
Proof.
  intros load.
  assert (Hbody : ∀ required_variables,
    _configure_credentials dest expanduser abspath key label
      required_variables e =
    (credentials_configuration ← load;
     (if truthy_dict required_variables then
        lift_result
          (CredentialsConfiguration.require credentials_configuration
             (default [] required_variables))
      else mret tt);;
     mret credentials_configuration) e).
  { intros required_variables.
    unfold _configure_credentials, load, mbind, M_bind.
    destruct (_configure_file dest expanduser abspath key label e)
      as [[[]|x] e1]; [|done].
    destruct (conf dest key e1) as [[v|x] e2]; [|done].
    destruct (as_path v e2) as [[path|x] e3]; [|done].
    by destruct (CredentialsConfiguration.__init__ path dest e3)
      as [[cc|x] e4]. }
  assert (Hskip : ∀ required_variables,
    truthy_dict required_variables = false →
    _configure_credentials dest expanduser abspath key label
      required_variables e = load e).
  { intros required_variables Hfalse. rewrite Hbody, Hfalse.
    unfold mbind, M_bind, mret, M_ret. by destruct (load e) as [[cc|x] e1]. }
  split; [by apply Hskip|]. split; [by apply Hskip|].
  split.
  { intros d Hd. rewrite Hbody. by destruct d. }
  intros path mode parsed Hconf Hpath Hstat Hlstat Hreg Hparse cc.
  assert (Hload : ∃ e', validate_file_permissions path e = (Ok tt, e')
                        ∧ load e = (Ok cc, e')).
  { assert (Hperm : ∃ e1, validate_file_permissions path e = (Ok tt, e1)
                          ∧ fs e1 = fs e).
    { unfold validate_file_permissions, mbind, M_bind, gets, lift_result,
        logger_warning, modify, mret, M_ret. simpl.
      rewrite (validate_file_ok _ _ _ Hstat Hreg), Hlstat.
      destruct (negb _); by eexists. }
    destruct Hperm as (e1 & Hv & Hfs). exists e1. split; [done|].
    unfold load, _configure_file, conf, gets, mbind, M_bind, mret, M_ret.
    rewrite Hconf. simpl.
    destruct (String.eqb_spec path EmptyString) as [?|_]; [done|]. simpl.
    unfold CredentialsConfiguration.__init__, mbind, M_bind, gets, mret, M_ret.
    rewrite Hconf. simpl. rewrite Hv. unfold id. by rewrite Hfs, Hparse. }
  destruct Hload as (e' & Hvalid & Hload). exists e'.
  split; [done|]. split; [by rewrite <- Hload; apply Hskip|].
  split; [by rewrite <- Hload; apply Hskip|].
  intros d Hd Hnd.
  assert (Hrun :
    _configure_credentials dest expanduser abspath key label (Some d) e =
      (match CredentialsConfiguration.require cc d with
       | Ok _ => Ok cc
       | Raise x => Raise x
       end, e')).
  { rewrite Hbody. unfold mbind at 1. unfold M_bind at 1. rewrite Hload.
    destruct d as [|kv d]; [done|]. simpl.
    unfold mbind, M_bind, lift_result, mret, M_ret.
    by destruct (CredentialsConfiguration.require cc (kv :: d)). }
  rewrite Hrun.
  destruct (require_ok_iff cc d Hnd) as [Hiff Hcases]. split.
  - intros Hall. apply Hiff in Hall. by rewrite Hall.
  - intros (k & v & Hin & Hbad).
    destruct Hcases as [Hok|[msg Hmsg]]; [|rewrite Hmsg; eauto].
    exfalso. destruct (proj1 Hiff Hok k v Hin) as (x & Hx & Hne).
    simpl in Hx. destruct Hbad as [Hk|Hk]; rewrite Hk in Hx; by simplify_eq.
Qed.

End credentials.

(** ** The theorems on the example provider *)

Import Example.

Lemma perform_creates_in_order_witness :
  ∃ responses,
    perform dest [www; mail] (new configured) =
      (Ok responses,
       {| _attempt_cleanup := true;
          env := set_provider
                   [("_acme-challenge.mail.example.com", "token-2");
                    ("_acme-challenge.www.example.com", "token-1")]
                   configured;
          calls := [] ++ CallSetupCredentials true ::
                   map (created true) [www; mail] ++ [CallSleep 10] |})
    ∧ length responses = length [www; mail]
    ∧ ∀ i achall, [www; mail] !! i = Some achall →
        responses !! i = Some (response achall (account_key achall)).
Proof.
  apply (perform_creates_in_order dest (new configured) [www; mail]
           configured _ 10).
  - vm_compute. reflexivity.
  - vm_compute. reflexivity.
  - vm_compute. reflexivity.
  - lia.
Defined.

Lemma perform_create_raises_witness :
  perform dest ([www] ++ unmanaged :: [mail]) (new configured) =
    (Raise (PluginError "Unable to determine zone for unmanaged.example"),
     {| _attempt_cleanup := true;
        env := set_provider [("_acme-challenge.www.example.com", "token-1")]
                            configured;
        calls := [] ++ CallSetupCredentials true ::
                 map (created true) [www] ++ [created false unmanaged] |})
  ∧ ∀ achalls : list (AnnotatedChallenge string string),
      _attempt_cleanup (perform dest achalls (new configured)).2 = true.
Proof.
  eapply (perform_create_raises dest (new configured) [www] unmanaged [mail]
            configured).
  - vm_compute. reflexivity.
  - vm_compute. reflexivity.
  - vm_compute. reflexivity.
Defined.

Lemma perform_sleeps_propagation_seconds_witness :
  perform dest [www; mail] (new configured) =
    (Ok ["token-1.account-key"; "token-2.account-key"],
     {| _attempt_cleanup := true;
        env := set_provider
                 [("_acme-challenge.mail.example.com", "token-2");
                  ("_acme-challenge.www.example.com", "token-1")]
                 configured;
        calls := [] ++ CallSetupCredentials true ::
                 map (created true) [www; mail] ++ [CallSleep 10] |})
  ∧ perform dest [www] (new negative_delay) =
      (Raise (ValueError "sleep length must be non-negative"),
       {| _attempt_cleanup := true;
          env := set_provider
                   [("_acme-challenge.www.example.com", "token-1")]
                   negative_delay;
          calls := [] ++ CallSetupCredentials true ::
                   map (created true) [www] |}).
Proof.
  split.
  - apply (proj2 (proj2 (proj2 (perform_sleeps_propagation_seconds dest)))
             (new configured) [www; mail] configured _ 10).
    + vm_compute. reflexivity.
    + vm_compute. reflexivity.
    + vm_compute. reflexivity.
    + lia.
  - apply (proj2 (proj2 (proj2 (perform_sleeps_propagation_seconds dest)))
             (new negative_delay) [www] negative_delay _ (-5)).
    + vm_compute. reflexivity.
    + vm_compute. reflexivity.
    + vm_compute. reflexivity.
    + lia.
Defined.

Lemma perform_no_challenges_witness :
  perform dest (@nil (AnnotatedChallenge string string)) (new cancelled) =
    (Raise (PluginError "credentials INI file required to proceed."),
     {| _attempt_cleanup := false; env := set_answers [] cancelled;
        calls := [] ++ [CallSetupCredentials false] |})
  ∧ perform dest (@nil (AnnotatedChallenge string string)) (new configured) =
      (Ok [], {| _attempt_cleanup := true; env := configured;
                 calls := [] ++ [CallSetupCredentials true; CallSleep 10] |})
  ∧ cleanup [www; mail]
      (perform dest (@nil (AnnotatedChallenge string string))
         (new configured)).2 =
      (Ok tt, {| _attempt_cleanup := true; env := configured;
                 calls := ([] ++ [CallSetupCredentials true; CallSleep 10]) ++
                          map (deleted true) [www; mail] |}).
Proof.
  split.
  - apply (proj1 (perform_no_challenges dest (new cancelled))).
    vm_compute. reflexivity.
  - assert (H10 : (0 ≤ 10)%Z) by lia.
    assert (Hsetup : _setup_credentials (env (new configured)) =
                       (Ok tt, configured)) by (vm_compute; reflexivity).
    assert (Hconf : config configured !! dest "propagation-seconds" =
                      Some (VInt 10)) by (vm_compute; reflexivity).
    split.
    + apply (proj1 (proj2 (perform_no_challenges (K:=string) (R:=string) dest
                             (new configured)))
               configured 10 Hsetup Hconf H10).
    + apply (proj1 (proj2 (perform_no_challenges (K:=string) (R:=string) dest
                             (new configured)))
               configured 10 Hsetup Hconf H10).
      vm_compute. reflexivity.
Defined.

(** [perform] is called with no challenges and the user cancels the
    credentials prompt: [_setup_credentials] is called and raises, and
    [perform] then neither sets [_attempt_cleanup], nor sleeps, nor
    returns the empty list of responses. *)
Lemma perform_no_challenges_cancelled_setup :
  perform dest (@nil (AnnotatedChallenge string string)) (new cancelled) =
    (Raise (PluginError "credentials INI file required to proceed."),
     {| _attempt_cleanup := false; env := set_answers [] cancelled;
        calls := [CallSetupCredentials false] |})
  ∧ _attempt_cleanup
      (perform dest (@nil (AnnotatedChallenge string string))
         (new cancelled)).2 ≠ true
  ∧ (perform dest (@nil (AnnotatedChallenge string string))
       (new cancelled)).1 ≠ Ok []
  ∧ ∀ n, CallSleep n ∉
           calls (perform dest (@nil (AnnotatedChallenge string string))
                    (new cancelled)).2.
Proof.
  assert (Hrun :
    perform dest (@nil (AnnotatedChallenge string string)) (new cancelled) =
      (Raise (PluginError "credentials INI file required to proceed."),
       {| _attempt_cleanup := false; env := set_answers [] cancelled;
          calls := [CallSetupCredentials false] |}))
    by (vm_compute; reflexivity).
  rewrite Hrun. simpl. split; [done|]. split; [done|]. split; [done|].
  intros n [Heq|Hin]%elem_of_cons; [discriminate Heq|].
  by apply elem_of_nil in Hin.
Qed.

(** [perform] was called on the instance, [_setup_credentials] raised
    because the user cancelled the prompt, and the [cleanup] that follows
    calls nothing: it is not true that [cleanup] deletes the record of
    every challenge on any instance whose [perform] was called. *)
Lemma cleanup_after_cancelled_setup :
  existsb is_perform [do_perform [www]] = true
  ∧ cleanup [www] (invoke_all dest [do_perform [www]] (new cancelled)) =
      (Ok tt, invoke_all dest [do_perform [www]] (new cancelled))
  ∧ calls (cleanup [www]
             (invoke_all dest [do_perform [www]] (new cancelled))).2 =
      [CallSetupCredentials false]
  ∧ ¬ ∃ ok,
        calls (cleanup [www]
                 (invoke_all dest [do_perform [www]] (new cancelled))).2 =
        calls (invoke_all dest [do_perform [www]] (new cancelled)) ++
        [deleted ok www].
Proof.
  split; [reflexivity|]. split; [vm_compute; reflexivity|].
  split; [vm_compute; reflexivity|].
  intros [ok Hcalls]. vm_compute in Hcalls. discriminate Hcalls.
Qed.

Lemma cleanup_follows_attempt_cleanup_witness :
  cleanup [www; mail] (new configured) = (Ok tt, new configured)
  ∧ invoke_all dest [do_cleanup [www]; do_cleanup [www; mail]] (new configured)
    = new configured
  ∧ cleanup [www; mail]
      {| _attempt_cleanup := true;
         env := set_provider
                  [("_acme-challenge.mail.example.com", "token-2");
                   ("_acme-challenge.www.example.com", "token-1")]
                  configured;
         calls := [] |} =
      (Ok tt, {| _attempt_cleanup := true; env := configured;
                 calls := [] ++ map (deleted true) [www; mail] |})
  ∧ @cleanup _ _ _ raising_cleanup ([] ++ www :: [unmanaged; mail])
      {| _attempt_cleanup := true; env := configured; calls := [] |} =
      (Raise (PluginError "Unable to delete record for www.example.com"),
       {| _attempt_cleanup := true; env := configured;
          calls := [] ++ @nil call ++ [deleted false www] |}).
Proof.
  split.
  { apply (proj1 (cleanup_follows_attempt_cleanup dest)). reflexivity. }
  split.
  { apply (proj1 (proj2 (cleanup_follows_attempt_cleanup dest))).
    repeat constructor. }
  split.
  { apply (proj1 (proj2 (proj2 (proj2
             (cleanup_follows_attempt_cleanup dest))))).
    - reflexivity.
    - vm_compute. reflexivity. }
  apply (proj1 (proj2 (proj2 (proj2 (proj2
           (@cleanup_follows_attempt_cleanup string string records
              raising_cleanup dest)))))
           {| _attempt_cleanup := true; env := configured; calls := [] |}
           [] www [unmanaged; mail] configured configured).
  - reflexivity.
  - reflexivity.
  - vm_compute. reflexivity.
Defined.

Lemma require_spec_witness :
  CredentialsConfiguration.require
    (credentials "/etc/letsencrypt/example.ini") required = Ok tt
  ∧ ∃ msg,
      CredentialsConfiguration.require
        (credentials "/etc/letsencrypt/open.ini") required =
        Raise (PluginError msg)
      ∧ Py.contains msg "/etc/letsencrypt/open.ini"
      ∧ Py.contains msg
          ("Property " +:+ dquote +:+ "dns_example_email" +:+ dquote +:+
           " not found (should be account email).")
      ∧ Py.contains msg
          ("Property " +:+ dquote +:+ "dns_example_token" +:+ dquote +:+
           " not set (should be API token).").
Proof.
  assert (Hnd : NoDup (dict_keys required))
    by (apply (bool_decide_unpack _); vm_compute; exact I).
  assert (Htoken : ("token", "API token") ∈ required) by left.
  assert (Hemail : ("email", "account email") ∈ required) by (right; left).
  split.
  - apply (proj1 (require_spec (credentials "/etc/letsencrypt/example.ini")
                    required Hnd)).
    intros k v Hin.
    apply elem_of_cons in Hin as [[= -> ->]|Hin];
      [eexists; split; [vm_compute; reflexivity|discriminate]|].
    apply elem_of_cons in Hin as [[= -> ->]|Hin];
      [eexists; split; [vm_compute; reflexivity|discriminate]|].
    by apply elem_of_nil in Hin.
  - destruct (proj2 (require_spec (credentials "/etc/letsencrypt/open.ini")
                       required Hnd)) as (msg & Hmsg & Hfile & Hnone & Hempty).
    { exists "email", "account email". split; [exact Hemail|].
      left. vm_compute. reflexivity. }
    exists msg. split; [exact Hmsg|]. split; [exact Hfile|]. split.
    + apply (Hnone "email" "account email" Hemail). vm_compute. reflexivity.
    + apply (Hempty "token" "API token" Htoken). vm_compute. reflexivity.
Defined.

Lemma validate_file_permissions_spec_witness :
  validate_file_permissions "/etc/letsencrypt/missing.ini" configured =
    (Raise (PluginError ("File not found: " +:+ "/etc/letsencrypt/missing.ini")),
     configured)
  ∧ validate_file_permissions "/etc/letsencrypt" configured =
      (Raise (PluginError ("Path is not a file: " +:+ "/etc/letsencrypt")),
       configured)
  ∧ ∃ msg,
      validate_file_permissions "/etc/letsencrypt/open.ini" configured =
        (Ok tt, {| config := config configured; fs := fs configured;
                   answers := answers configured;
                   warnings := warnings configured ++ [msg];
                   provider := provider configured |})
      ∧ Py.contains msg "/etc/letsencrypt/open.ini".
Proof.
  split.
  { apply (proj1 (proj2 (validate_file_permissions_spec
                           "/etc/letsencrypt/missing.ini" configured))).
    vm_compute. reflexivity. }
  split.
  { apply (proj1 (proj2 (proj2 (proj2 (validate_file_permissions_spec
                                         "/etc/letsencrypt" configured))))
             directory).
    - vm_compute. reflexivity.
    - vm_compute. reflexivity. }
  apply (proj2 (proj2 (proj2 (proj2 (validate_file_permissions_spec
                                       "/etc/letsencrypt/open.ini"
                                       configured))))
           world_readable_file).
  - vm_compute. reflexivity.
  - vm_compute. reflexivity.
  - vm_compute. reflexivity.
  - vm_compute. reflexivity.
Defined.

Lemma configure_credentials_required_variables_witness :
  ∃ e',
    validate_file_permissions "/etc/letsencrypt/empty.ini"
      (configured_with "/etc/letsencrypt/empty.ini") = (Ok tt, e')
    ∧ _configure_credentials dest expanduser abspath
        "credentials" "credentials INI file" None
        (configured_with "/etc/letsencrypt/empty.ini") =
        (Ok {| filename := "/etc/letsencrypt/empty.ini"; confobj := ∅;
               mapper := dest |}, e')
    ∧ _configure_credentials dest expanduser abspath
        "credentials" "credentials INI file" (Some [])
        (configured_with "/etc/letsencrypt/empty.ini") =
        (Ok {| filename := "/etc/letsencrypt/empty.ini"; confobj := ∅;
               mapper := dest |}, e')
    ∧ ∃ msg,
        _configure_credentials dest expanduser abspath
          "credentials" "credentials INI file" (Some required)
          (configured_with "/etc/letsencrypt/empty.ini") =
          (Raise (PluginError msg), e').
Proof.
  destruct (proj2 (proj2 (proj2
              (configure_credentials_required_variables
                 dest expanduser abspath "credentials" "credentials INI file"
                 (configured_with "/etc/letsencrypt/empty.ini"))))
              "/etc/letsencrypt/empty.ini" private_file ∅)
    as (e' & Hvalid & Hnone & Hempty & Hrequired).
  - vm_compute. reflexivity.
  - discriminate.
  - vm_compute. reflexivity.
  - vm_compute. reflexivity.
  - vm_compute. reflexivity.
  - vm_compute. reflexivity.
  - exists e'. split; [exact Hvalid|]. split; [exact Hnone|].
    split; [exact Hempty|].
    apply (Hrequired required).
    + discriminate.
    + apply (bool_decide_unpack _). vm_compute. exact I.
    + exists "token", "API token". split; [left|]. left. vm_compute. reflexivity.
Defined.

Lemma base_domain_name_guesses_spec_witness :
  ∃ label, "www.example.com" = label +:+ "." +:+ "example.com"
           ∧ Py.count "." label = 0%nat.
Proof.
  apply (proj1 (proj2 (proj1 base_domain_name_guesses_spec "www.example.com"))
           0%nat "www.example.com" "example.com").
  - vm_compute. reflexivity.
  - vm_compute. reflexivity.
Defined.

Lemma base_domain_name_guesses_suffix_decreasing_witness :
  Py.endswith "www.example.com" "com"
  ∧ (String.length "example.com" < String.length "www.example.com")%nat.
Proof.
  split.
  - apply (proj1 (base_domain_name_guesses_suffix_decreasing "www.example.com")).
    apply (bool_decide_unpack _). vm_compute. exact I.
  - apply (proj2 (base_domain_name_guesses_suffix_decreasing "www.example.com")
             0%nat "www.example.com" "example.com").
    + vm_compute. reflexivity.
    + vm_compute. reflexivity.
Defined.

(** * Further properties *)

(** ** More on [base_domain_name_guesses] *)

Section more_guesses.

Implicit Types d s label rest : string.

Lemma split_no_dot sep s : Py.count sep s = 0%nat → Py.split sep s = [s].
Proof.
  induction s as [|c s IH]; [done|]. simpl.
  destruct (Ascii.eqb c sep); [done|]. simpl. intros H. by rewrite IH.
Qed.

(** Joining dot-free fragments and splitting again gives them back. *)
Lemma split_join sep (l : list string) :
  l ≠ [] → Forall (λ f, Py.count sep f = 0%nat) l →
  Py.split sep (Py.join (String sep EmptyString) l) = l.
Proof.
  induction l as [|x l IH]; [done|]. intros _ [Hx Hl]%Forall_cons.
  destruct l as [|y l]; [by apply split_no_dot|].
  rewrite join_cons.
  change (String sep EmptyString +:+ ?t) with (String sep t).
  rewrite split_app, (split_no_dot _ _ Hx), IH; done.
Qed.

Lemma split_Forall_no_sep sep s :
  Forall (λ f, Py.count sep f = 0%nat) (Py.split sep s).
Proof. apply Forall_forall. intros f. apply split_no_sep. Qed.

(** A guess further down the list is strictly shorter. *)
Lemma guesses_length_lt d k : ∀ i s t,
  base_domain_name_guesses d !! i = Some s →
  base_domain_name_guesses d !! (i + S k)%nat = Some t →
  (String.length t < String.length s)%nat.
Proof.
  induction k as [|k IH]; intros i s t Hs Ht.
  - replace (i + 1)%nat with (S i) in Ht by lia.
    destruct (guesses_step _ _ _ _ Hs Ht) as (label & -> & _).
    rewrite !length_app_str. simpl. lia.
  - destruct (lookup_lt_is_Some_2 (base_domain_name_guesses d) (S i))
      as [u Hu]; [apply lookup_lt_Some in Ht; lia|].
    replace (i + S (S k))%nat with (S i + S k)%nat in Ht by lia.
    pose proof (IH _ _ _ Hu Ht).
    destruct (guesses_step _ _ _ _ Hs Hu) as (label & -> & _).
    rewrite !length_app_str. simpl. lia.
Qed.

End more_guesses.

(** X1. A domain without a dot has itself as its only guess. *)
Theorem guesses_without_dot (d : string) :
  Py.count "." d = 0%nat → base_domain_name_guesses d = [d].
Proof.
  intros H. unfold base_domain_name_guesses. by rewrite (split_no_dot _ _ H).
Qed.

(** X2. The guesses of [label.rest], for a dot-free [label], are
    [label.rest] itself followed by the guesses of [rest]. *)
Theorem guesses_cons_label (label rest : string) :
  Py.count "." label = 0%nat →
  base_domain_name_guesses (label +:+ "." +:+ rest) =
    (label +:+ "." +:+ rest) :: base_domain_name_guesses rest.
Proof.
  intros Hlabel. unfold base_domain_name_guesses.
  change ("." +:+ rest) with (String "." rest).
  rewrite split_app, (split_no_dot _ _ Hlabel). simpl. f_equal.
  - pose proof (split_nonempty "." rest) as Hne.
    pose proof (join_split "." rest) as Hjoin.
    destruct (Py.split "." rest) as [|f fs]; [done|].
    by rewrite Hjoin.
  - by rewrite <- fmap_S_seq, <- list_fmap_compose.
Qed.

(** X3. The guesses of a guess are the guesses from it on: the i-th guess
    of [d] has as its guesses the list of guesses of [d] without its
    first i elements. *)
Theorem guesses_of_guess (d s : string) (i : nat) :
  base_domain_name_guesses d !! i = Some s →
  base_domain_name_guesses s = drop i (base_domain_name_guesses d).
Proof.
  intros [Hi ->]%guesses_lookup.
  assert (Hsplit : Py.split "." (Py.join "." (drop i (Py.split "." d))) =
                   drop i (Py.split "." d)).
  { apply split_join.
    - intros Hnil%(f_equal length). rewrite length_drop in Hnil.
      simpl in Hnil. lia.
    - apply Forall_drop, split_Forall_no_sep. }
  apply list_eq. intros j. apply option_eq. intros x.
  rewrite lookup_drop, !guesses_lookup, Hsplit, length_drop, drop_drop.
  split; intros [Hlt ->]; (split; [lia|done]).
Qed.

(** X4. No guess occurs twice. *)
Theorem guesses_NoDup (d : string) : NoDup (base_domain_name_guesses d).
Proof.
  apply NoDup_alt. intros i j x Hi Hj.
  destruct (Nat.lt_trichotomy i j) as [Hlt|[Heq|Hgt]]; [|done|].
  - replace j with (i + S (j - i - 1))%nat in Hj by lia.
    pose proof (guesses_length_lt _ _ _ _ _ Hi Hj). lia.
  - replace i with (j + S (i - j - 1))%nat in Hi by lia.
    pose proof (guesses_length_lt _ _ _ _ _ Hj Hi). lia.
Qed.

(** ** More on file validation *)

Section more_files.

Context {B : Type}.
Implicit Types (e : Env B) (path : string).

Lemma env_eta e :
  {| config := config e; fs := fs e; answers := answers e;
     warnings := warnings e; provider := provider e |} = e.
Proof. by destruct e. Qed.

(** Whatever the outcome, [validate_file_permissions] leaves the
    environment alone but for the warning it may append; when it raises
    it has logged nothing. *)
Lemma validate_file_permissions_frame path e :
  ∃ logged,
    (validate_file_permissions path e).2 =
      {| config := config e; fs := fs e; answers := answers e;
         warnings := warnings e ++ logged; provider := provider e |}
    ∧ (logged = [] ∨
       logged = ["Unsafe permissions on credentials configuration file: "
                 +:+ path]
       ∧ (validate_file_permissions path e).1 = Ok tt).
Proof.
  unfold validate_file_permissions, mbind, M_bind, gets, lift_result,
    logger_warning, modify, mret, M_ret, raise. simpl.
  destruct (validate_file (fs e) path) as [[]|x].
  - destruct (os_lstat (fs e) path) as [lmode|].
    + destruct (negb _); simpl.
      * eexists. split; [done|]. by right.
      * exists []. rewrite app_nil_r, env_eta. auto.
    + exists []. simpl. rewrite app_nil_r, env_eta. auto.
  - exists []. simpl. rewrite app_nil_r, env_eta. auto.
Qed.

End more_files.

(** X5. On a path that [os.stat] reports as a regular file,
    [validate_file_permissions] returns normally, and whether it logs the
    warning is decided by the three "other" bits of the mode [os.lstat]
    reports (for a symbolic link, the mode of the link itself): with one
    of them set the warning is logged, with none set nothing is logged
    and nothing changes, whatever the owner and group bits are. *)
Theorem validate_file_permissions_lstat_bits {B} (path : string) (e : Env B)
    (mode lmode : Z) :
  os_stat (fs e) path = Some mode → S_ISREG mode = true →
  os_lstat (fs e) path = Some lmode →
  validate_file_permissions path e =
    (Ok tt,
     if Z.testbit lmode 2 || Z.testbit lmode 1 || Z.testbit lmode 0 then
       {| config := config e; fs := fs e; answers := answers e;
          warnings := warnings e ++
            ["Unsafe permissions on credentials configuration file: "
             +:+ path];
          provider := provider e |}
     else e).
Proof.
  intros Hstat Hreg Hlstat.
  remember (Z.testbit lmode 2 || Z.testbit lmode 1 || Z.testbit lmode 0)
    as other eqn:Hother.
  unfold validate_file_permissions, mbind, M_bind, gets, lift_result. simpl.
  rewrite (validate_file_ok _ _ _ Hstat Hreg), Hlstat, other_bits.
  replace (Z.testbit lmode 0 || Z.testbit lmode 1 || Z.testbit lmode 2)
    with other
    by (subst other; destruct (Z.testbit lmode 0), (Z.testbit lmode 1),
          (Z.testbit lmode 2); reflexivity).
  by destruct other.
Qed.

(** X6. In every outcome [validate_file_permissions] leaves the
    configuration, the file system, the pending answers and the provider
    state as they were and logs at most the one warning; when it raises
    it has logged nothing, and what it raises is [validate_file]'s
    [PluginError] or the error of [os.lstat]. *)
Theorem validate_file_permissions_only_warns {B} (path : string) (e : Env B) :
  config (validate_file_permissions path e).2 = config e
  ∧ fs (validate_file_permissions path e).2 = fs e
  ∧ answers (validate_file_permissions path e).2 = answers e
  ∧ provider (validate_file_permissions path e).2 = provider e
  ∧ (warnings (validate_file_permissions path e).2 = warnings e
     ∨ (validate_file_permissions path e).1 = Ok tt
       ∧ warnings (validate_file_permissions path e).2 =
           warnings e ++
           ["Unsafe permissions on credentials configuration file: "
            +:+ path])
  ∧ (∀ x, (validate_file_permissions path e).1 = Raise x →
       (validate_file_permissions path e).2 = e
       ∧ (x = PluginError ("File not found: " +:+ path)
          ∨ x = PluginError ("Path is not a file: " +:+ path)
          ∨ x = OSError path)).
Proof.
  destruct (validate_file_permissions_frame path e) as (logged & He & Hlogged).
  rewrite He. simpl. do 4 (split; [done|]). split.
  - destruct Hlogged as [->|[-> Hok]]; [left; by rewrite app_nil_r|by right].
  - intros x Hx.
    destruct Hlogged as [->|[-> Hok]]; [|by rewrite Hok in Hx].
    rewrite app_nil_r, env_eta. split; [done|]. revert Hx.
    unfold validate_file_permissions, validate_file, mbind, M_bind, gets,
      lift_result, logger_warning, modify, mret, M_ret, raise. simpl.
    destruct (negb (os_path_exists (fs e) path)); simpl;
      [intros [= <-]; auto|].
    destruct (negb (os_path_isfile (fs e) path)); simpl;
      [intros [= <-]; auto|].
    destruct (os_lstat (fs e) path); [by destruct (negb _)|].
    simpl. intros [= <-]. auto.
Qed.

(** ** More on [CredentialsConfiguration.require] *)

Section more_require.

Import CredentialsConfiguration.

Implicit Types (self : CredentialsConfiguration) (d : dict).

(** The loop only ever appends to [messages], and it appends nothing
    exactly when every variable it went through is present and set. *)
Lemma require_loop_grows self d vars : ∀ messages out,
  require_loop self d vars messages = Ok out →
  ∃ extra, out = messages ++ extra
    ∧ (extra = [] →
       ∀ k, k ∈ vars → ∃ x, _get self k = Some x ∧ x ≠ EmptyString).
Proof.
  induction vars as [|var vars IH]; intros messages out; simpl.
  - intros [= <-]. exists []. rewrite app_nil_r. split; [done|].
    by intros _ k ?%elem_of_nil.
  - unfold _has, _get in *.
    destruct (confobj self !! mapper self var) as [x|] eqn:Hx; simpl.
    + destruct (String.eqb_spec x EmptyString) as [->|Hne]; simpl.
      * destruct (dict_getitem d var); [|done].
        intros (extra & -> & _)%IH. eexists. rewrite <- app_assoc.
        split; [done|]. done.
      * intros (extra & -> & Hall)%IH. exists extra. split; [done|].
        intros Hnil k [->|Hin]%elem_of_cons; [eauto|by apply Hall].
    + destruct (dict_getitem d var); [|done].
      intros (extra & -> & _)%IH. eexists. rewrite <- app_assoc.
      split; [done|]. done.
Qed.

(** A variable that passes adds no message. *)
Lemma omap_passing self (l : dict) :
  (∀ k v, (k, v) ∈ l →
     ∃ x, confobj self !! mapper self k = Some x ∧ x ≠ EmptyString) →
  omap (λ '(k, v),
          if negb (_has self k)
          then Some (not_found_message (mapper self k) v)
          else if negb (truthy_get (_get self k))
          then Some (not_set_message (mapper self k) v)
          else None) l = [].
Proof.
  induction l as [|[k v] l IH]; [done|]. intros Hall. simpl.
  destruct (Hall k v ltac:(left)) as (x & Hx & Hne).
  unfold _has, _get. rewrite Hx. simpl.
  destruct (String.eqb_spec x EmptyString); [done|]. simpl.
  apply IH. intros k' v' Hin. apply (Hall k' v'). by right.
Qed.

End more_require.

(** X7. When [require] returns, [conf] gives a non-empty value for every
    required variable. *)
Theorem require_ok_conf (self : CredentialsConfiguration) (d : dict) :
  CredentialsConfiguration.require self d = Ok tt →
  ∀ k, k ∈ dict_keys d →
    ∃ x, CredentialsConfiguration.conf self k = Some x ∧ x ≠ EmptyString.
Proof.
  unfold CredentialsConfiguration.require, CredentialsConfiguration.conf.
  destruct (CredentialsConfiguration.require_loop self d (dict_keys d) [])
    as [out|x] eqn:Hloop; [|done].
  apply require_loop_grows in Hloop as (extra & -> & Hall).
  destruct extra; [|done]. intros _. by apply Hall.
Qed.

(** X8. When one required variable fails and every other one is present
    and set, the message of the error says "property" and has the one
    line for that variable: "not found" if the file lacks the key, "not
    set" if its value is empty. *)
Theorem require_one_failure (self : CredentialsConfiguration)
    (d1 d2 : dict) (k v : string) :
  NoDup (dict_keys (d1 ++ (k, v) :: d2)) →
  (∀ k' v', (k', v') ∈ d1 ++ d2 →
     ∃ x, confobj self !! mapper self k' = Some x ∧ x ≠ EmptyString) →
  (confobj self !! mapper self k = None →
   CredentialsConfiguration.require self (d1 ++ (k, v) :: d2) =
     Raise (PluginError
       ("Missing property in credentials configuration file " +:+
        filename self +:+ ":" +:+ newline +:+ " * " +:+
        "Property " +:+ dquote +:+ mapper self k +:+ dquote +:+
        " not found (should be " +:+ v +:+ ").")))
  ∧ (confobj self !! mapper self k = Some EmptyString →
     CredentialsConfiguration.require self (d1 ++ (k, v) :: d2) =
       Raise (PluginError
         ("Missing property in credentials configuration file " +:+
          filename self +:+ ":" +:+ newline +:+ " * " +:+
          "Property " +:+ dquote +:+ mapper self k +:+ dquote +:+
          " not set (should be " +:+ v +:+ ")."))).
Proof.
  intros Hnd Hpass. rewrite (require_eq _ _ Hnd), omap_app. simpl.
  rewrite !omap_passing
    by (intros k' v' Hin; apply (Hpass k' v'), elem_of_app; auto).
  unfold CredentialsConfiguration._has, CredentialsConfiguration._get.
  split; intros ->; reflexivity.
Qed.

(** X9. When two required variables fail, the first missing from the
    file and the second empty, and every other one is present and set,
    the message says "properties" and has the two lines in the order of
    the dict. *)
Theorem require_two_failures (self : CredentialsConfiguration)
    (d1 d2 d3 : dict) (k1 v1 k2 v2 : string) :
  NoDup (dict_keys (d1 ++ (k1, v1) :: d2 ++ (k2, v2) :: d3)) →
  (∀ k' v', (k', v') ∈ d1 ++ d2 ++ d3 →
     ∃ x, confobj self !! mapper self k' = Some x ∧ x ≠ EmptyString) →
  confobj self !! mapper self k1 = None →
  confobj self !! mapper self k2 = Some EmptyString →
  CredentialsConfiguration.require self
    (d1 ++ (k1, v1) :: d2 ++ (k2, v2) :: d3) =
    Raise (PluginError
      ("Missing properties in credentials configuration file " +:+
       filename self +:+ ":" +:+ newline +:+ " * " +:+
       "Property " +:+ dquote +:+ mapper self k1 +:+ dquote +:+
       " not found (should be " +:+ v1 +:+ ")." +:+
       newline +:+ " * " +:+
       "Property " +:+ dquote +:+ mapper self k2 +:+ dquote +:+
       " not set (should be " +:+ v2 +:+ ").")).
Proof.
  intros Hnd Hpass Hk1 Hk2.
  rewrite (require_eq _ _ Hnd), omap_app. simpl. rewrite omap_app. simpl.
  rewrite !omap_passing
    by (intros k' v' Hin; apply (Hpass k' v'); rewrite !elem_of_app; auto).
  unfold CredentialsConfiguration._has, CredentialsConfiguration._get.
  rewrite Hk1, Hk2. simpl.
  unfold CredentialsConfiguration.missing_message,
    CredentialsConfiguration.not_found_message,
    CredentialsConfiguration.not_set_message. simpl.
  by rewrite !app_assoc_str.
Qed.

(** ** The prompts and [_configure], [_configure_file] *)

Section prompts.

Context {B : Type}.
Context (dest : string → string) (expanduser abspath : string → string).

Implicit Types (e : Env B) (key label : string).

(** An answer the display returns with [OK] has passed the validator, and
    the answers left are a tail of the ones there were. *)
Lemma get_validated_spec validator script : ∀ code raw rest,
  get_validated validator script = ((code, raw), rest) →
  (code = OK → validator raw = Ok tt)
  ∧ ∃ asked, script = asked ++ rest.
Proof.
  induction script as [|[c r] script IH]; intros code raw rest; simpl.
  - intros [= <- <- <-]. split; [done|]. by exists [].
  - destruct c; simpl.
    + destruct (validator r) as [[]|x] eqn:Hv.
      * intros [= <- <- <-]. split; [done|]. by exists [(OK, r)].
      * intros [Hok [asked ->]]%IH. split; [done|].
        by exists ((OK, r) :: asked).
    + intros [= <- <- <-]. split; [done|]. by exists [(CANCEL, r)].
    + intros [= <- <- <-]. split; [done|]. by exists [(HELP, r)].
    + intros [= <- <- <-]. split; [done|]. by exists [(ESC, r)].
Qed.

(** Both prompts only consume answers. *)
Lemma prompt_for_data_frame label e :
  ∃ asked, answers e = asked ++ answers (_prompt_for_data label e).2
    ∧ (_prompt_for_data label e).2 =
        set_answers (answers (_prompt_for_data label e).2) e.
Proof.
  unfold _prompt_for_data, validated_input, mbind, M_bind, mret, M_ret, raise.
  destruct (get_validated _ (answers e)) as [[code raw] rest] eqn:Hg.
  apply get_validated_spec in Hg as [_ [asked Hasked]].
  exists asked. by destruct (status_eqb code OK).
Qed.

Lemma prompt_for_file_frame label e :
  ∃ asked, answers e = asked ++ answers (_prompt_for_file expanduser label e).2
    ∧ (_prompt_for_file expanduser label e).2 =
        set_answers (answers (_prompt_for_file expanduser label e).2) e.
Proof.
  unfold _prompt_for_file, validated_directory, mbind, M_bind, mret, M_ret,
    raise, gets. simpl.
  destruct (get_validated _ (answers e)) as [[code raw] rest] eqn:Hg.
  apply get_validated_spec in Hg as [_ [asked Hasked]].
  exists asked. by destruct (status_eqb code OK).
Qed.

Lemma prompt_for_data_result label e :
  (∃ response, (_prompt_for_data label e).1 = Ok response
               ∧ response ≠ EmptyString)
  ∨ (_prompt_for_data label e).1 =
      Raise (PluginError (label +:+ " required to proceed.")).
Proof.
  unfold _prompt_for_data, validated_input, mbind, M_bind, mret, M_ret, raise.
  destruct (get_validated _ (answers e)) as [[code raw] rest] eqn:Hg.
  apply get_validated_spec in Hg as [Hok _].
  destruct code; simpl; auto. left. exists raw. split; [done|].
  specialize (Hok eq_refl). simpl in Hok. intros ->. done.
Qed.

Lemma prompt_for_file_result label e :
  (∃ response mode,
     (_prompt_for_file expanduser label e).1 = Ok response
     ∧ response ≠ EmptyString
     ∧ os_stat (fs e) (expanduser response) = Some mode
     ∧ S_ISREG mode = true)
  ∨ (_prompt_for_file expanduser label e).1 =
      Raise (PluginError (label +:+ " required to proceed.")).
Proof.
  unfold _prompt_for_file, validated_directory, mbind, M_bind, mret, M_ret,
    raise, gets. simpl.
  destruct (get_validated _ (answers e)) as [[code raw] rest] eqn:Hg.
  apply get_validated_spec in Hg as [Hok _].
  destruct code; simpl; auto. left. specialize (Hok eq_refl). simpl in Hok.
  destruct (String.eqb_spec raw EmptyString) as [->|Hne]; [done|].
  simpl in Hok. unfold validate_file, os_path_exists, os_path_isfile in Hok.
  destruct (os_stat (fs e) (expanduser raw)) as [mode|] eqn:Hstat; [|done].
  simpl in Hok. destruct (S_ISREG mode) eqn:Hreg; [|done].
  by exists raw, mode.
Qed.

(** [_configure] and [_configure_file], one case at a time. *)
Lemma configure_unfold key label e :
  _configure dest key label e =
    if truthy (default VNone (config e !! dest key)) then (Ok tt, e)
    else match _prompt_for_data label e with
         | (Ok new_value, e1) =>
             (Ok tt, set_config <[dest key := VStr new_value]> e1)
         | (Raise x, e1) => (Raise x, e1)
         end.
Proof.
  unfold _configure, conf, setattr_config, mbind, M_bind, mret, M_ret, gets,
    modify. simpl.
  destruct (truthy _); simpl; [done|].
  by destruct (_prompt_for_data label e) as [[r|x] e1].
Qed.

Lemma configure_file_unfold key label e :
  _configure_file dest expanduser abspath key label e =
    if truthy (default VNone (config e !! dest key)) then (Ok tt, e)
    else match _prompt_for_file expanduser label e with
         | (Ok new_value, e1) =>
             (Ok tt,
              set_config
                <[dest key := VStr (abspath (expanduser new_value))]> e1)
         | (Raise x, e1) => (Raise x, e1)
         end.
Proof.
  unfold _configure_file, conf, setattr_config, mbind, M_bind, mret, M_ret,
    gets, modify. simpl.
  destruct (truthy _); simpl; [done|].
  by destruct (_prompt_for_file expanduser label e) as [[r|x] e1].
Qed.

End prompts.

(** X10. [_prompt_for_data] either returns a non-empty answer or raises
    the [PluginError] "<label> required to proceed."; it changes nothing
    but the answers still pending, of which it consumes some from the
    front. *)
Theorem prompt_for_data_nonempty {B} (label : string) (e : Env B) :
  ((∃ response, (_prompt_for_data label e).1 = Ok response
                ∧ response ≠ EmptyString)
   ∨ (_prompt_for_data label e).1 =
       Raise (PluginError (label +:+ " required to proceed.")))
  ∧ ∃ asked,
      answers e = asked ++ answers (_prompt_for_data label e).2
      ∧ (_prompt_for_data label e).2 =
          set_answers (answers (_prompt_for_data label e).2) e.
Proof.
  split; [apply prompt_for_data_result|apply prompt_for_data_frame].
Qed.

(** X11. [_prompt_for_file] either returns a non-empty path that, once
    [expanduser] is applied, names an existing regular file, or raises
    the [PluginError] "<label> required to proceed.". *)
Theorem prompt_for_file_exists {B} (expanduser : string → string)
    (label : string) (e : Env B) :
  (∃ response mode,
     (_prompt_for_file expanduser label e).1 = Ok response
     ∧ response ≠ EmptyString
     ∧ os_stat (fs e) (expanduser response) = Some mode
     ∧ S_ISREG mode = true)
  ∨ (_prompt_for_file expanduser label e).1 =
      Raise (PluginError (label +:+ " required to proceed.")).
Proof. apply prompt_for_file_result. Qed.

(** X12. [_configure]: with a value configured it prompts for nothing and
    changes nothing.  Whenever it returns, the key holds a non-empty
    value, so that calling it again changes nothing.  When it raises, it
    raises "<label> required to proceed." and the configuration is as it
    was.  It never touches the file system, the log, the provider state
    or another key of the configuration. *)
Theorem configure_ensures_value {B} (dest : string → string)
    (key label : string) (e : Env B) :
  (truthy (default VNone (config e !! dest key)) = true →
   _configure dest key label e = (Ok tt, e))
  ∧ ((_configure dest key label e).1 = Ok tt →
     truthy (default VNone
               (config (_configure dest key label e).2 !! dest key)) = true
     ∧ _configure dest key label (_configure dest key label e).2 =
         (Ok tt, (_configure dest key label e).2))
  ∧ (∀ x, (_configure dest key label e).1 = Raise x →
       x = PluginError (label +:+ " required to proceed.")
       ∧ config (_configure dest key label e).2 = config e)
  ∧ fs (_configure dest key label e).2 = fs e
  ∧ warnings (_configure dest key label e).2 = warnings e
  ∧ provider (_configure dest key label e).2 = provider e
  ∧ ∀ name, name ≠ dest key →
      config (_configure dest key label e).2 !! name = config e !! name.
Proof.
  assert (Hnoop : ∀ e0 : Env B,
            truthy (default VNone (config e0 !! dest key)) = true →
            _configure dest key label e0 = (Ok tt, e0)).
  { intros e0 H. by rewrite configure_unfold, H. }
  split; [apply Hnoop|].
  rewrite configure_unfold.
  destruct (truthy (default VNone (config e !! dest key))) eqn:Htruthy.
  { simpl. split; [auto|]. split; [done|]. done. }
  destruct (prompt_for_data_frame label e) as (asked & _ & Hframe).
  destruct (prompt_for_data_result label e) as [(r & Hr & Hne)|Hraise];
    destruct (_prompt_for_data label e) as [[r'|x] e1]; simpl in *;
    simplify_eq; simpl;
    (assert (Hc : config e1 = config e) by (by rewrite Hframe));
    (assert (Hf : fs e1 = fs e) by (by rewrite Hframe));
    (assert (Hw : warnings e1 = warnings e) by (by rewrite Hframe));
    (assert (Hp : provider e1 = provider e) by (by rewrite Hframe));
    rewrite ?Hc.
  - assert (Hset : truthy (default VNone
                     (<[dest key:=VStr r]> (config e) !! dest key)) = true).
    { rewrite lookup_insert_eq. simpl.
      by destruct (String.eqb_spec r EmptyString). }
    split; [intros _; split; [done|apply Hnoop; simpl; by rewrite Hc]|].
    split; [done|]. do 3 (split; [done|]).
    intros name Hname. by rewrite lookup_insert_ne.
  - split; [done|]. split; [by intros ? [= <-]|]. done.
Qed.

(** X13. [_configure_file]: with a value configured it prompts for
    nothing and changes nothing.  Otherwise, when it returns, the key
    holds [abspath(expanduser(answer))] for a non-empty answer whose
    expansion names an existing regular file; when it raises, it raises
    "<label> required to proceed." and the configuration is as it was.
    It never touches the file system, the log, the provider state or
    another key of the configuration. *)
Theorem configure_file_stores_absolute_path {B} (dest : string → string)
    (expanduser abspath : string → string) (key label : string) (e : Env B) :
  (truthy (default VNone (config e !! dest key)) = true →
   _configure_file dest expanduser abspath key label e = (Ok tt, e))
  ∧ (truthy (default VNone (config e !! dest key)) = false →
     (_configure_file dest expanduser abspath key label e).1 = Ok tt →
     ∃ answer mode,
       config (_configure_file dest expanduser abspath key label e).2
         !! dest key = Some (VStr (abspath (expanduser answer)))
       ∧ answer ≠ EmptyString
       ∧ os_stat (fs e) (expanduser answer) = Some mode
       ∧ S_ISREG mode = true)
  ∧ (∀ x, (_configure_file dest expanduser abspath key label e).1 = Raise x →
       x = PluginError (label +:+ " required to proceed.")
       ∧ config (_configure_file dest expanduser abspath key label e).2 =
           config e)
  ∧ fs (_configure_file dest expanduser abspath key label e).2 = fs e
  ∧ warnings (_configure_file dest expanduser abspath key label e).2 =
      warnings e
  ∧ provider (_configure_file dest expanduser abspath key label e).2 =
      provider e
  ∧ ∀ name, name ≠ dest key →
      config (_configure_file dest expanduser abspath key label e).2 !! name =
      config e !! name.
Proof.
  rewrite configure_file_unfold.
  destruct (truthy (default VNone (config e !! dest key))) eqn:Htruthy.
  { simpl. split; [done|]. split; [done|]. split; [done|]. done. }
  split; [done|].
  destruct (prompt_for_file_frame expanduser label e) as (asked & _ & Hframe).
  destruct (prompt_for_file_result expanduser label e)
    as [(r & mode & Hr & Hne & Hstat & Hreg)|Hraise];
    destruct (_prompt_for_file expanduser label e) as [[r'|x] e1];
    simpl in *;
    simplify_eq; simpl;
    (assert (Hc : config e1 = config e) by (by rewrite Hframe));
    (assert (Hf : fs e1 = fs e) by (by rewrite Hframe));
    (assert (Hw : warnings e1 = warnings e) by (by rewrite Hframe));
    (assert (Hp : provider e1 = provider e) by (by rewrite Hframe));
    rewrite ?Hc.
  - split.
    { intros _ _. exists r, mode. by rewrite lookup_insert_eq. }
    split; [done|]. do 3 (split; [done|]).
    intros name Hname. by rewrite lookup_insert_ne.
  - split; [done|]. split; [by intros ? [= <-]|]. done.
Qed.

(** ** More on [perform] and [cleanup] *)

Section more_authenticator.

Context {K R B : Type} `{!DNSProvider B}.
Context (dest : string → string).

Implicit Types (self : Authenticator B) (e : Env B).
Implicit Types (achall : AnnotatedChallenge K R).
Implicit Types (achalls pre post : list (AnnotatedChallenge K R)).
Implicit Types (history : list (@method_call K R)) (c : @method_call K R).

Local Ltac run :=
  unfold mbind, M_bind, mret, M_ret, observe, with_env, set_attempt_cleanup,
    modify, gets, raise; simpl.

(** If not every run succeeds, there is a first one that raises. *)
Lemma all_succeed_None (f : AnnotatedChallenge K R → M (Env B) unit) achalls :
  ∀ e, all_succeed f achalls e = None →
  ∃ pre achall post e' e'' x,
    achalls = pre ++ achall :: post
    ∧ all_succeed f pre e = Some e'
    ∧ f achall e' = (Raise x, e'').
Proof.
  induction achalls as [|a achalls IH]; intros e; [done|]. simpl.
  destruct (f a e) as [[[]|x] e1] eqn:Hf.
  - intros (pre & achall & post & e' & e'' & y & -> & Hpre & Hfail)%IH.
    exists (a :: pre), achall, post, e', e'', y. simpl. by rewrite Hf.
  - intros _. by exists [], a, achalls, e, e1, x.
Qed.

(** The calls a loop records are, position by position, for the
    challenges it was given. *)
Lemma created_prefix pre achall post oks :
  ∀ i call0,
    (map (created true) pre ++ oks) !! i = Some call0 →
    oks = [] ∨ oks = [created false achall] →
    ∃ ok a, (pre ++ achall :: post) !! i = Some a ∧ call0 = created ok a.
Proof.
  intros i call0 Hi Hoks.
  destruct (decide (i < length pre)%nat) as [Hlt|Hge].
  - rewrite lookup_app_l in Hi by (by rewrite length_map).
    rewrite list_lookup_fmap in Hi.
    destruct (pre !! i) as [a|] eqn:Ha; [|done]. simpl in Hi.
    exists true, a. rewrite lookup_app_l by done. by simplify_eq.
  - rewrite lookup_app_r in Hi by (rewrite length_map; lia).
    rewrite length_map in Hi.
    destruct Hoks as [->| ->]; [by rewrite lookup_nil in Hi|].
    destruct (i - length pre)%nat as [|n] eqn:Hn; [|done].
    simpl in Hi. exists false, achall.
    rewrite lookup_app_r by lia. rewrite Hn. by simplify_eq.
Qed.

Lemma deleted_prefix pre achall post oks :
  ∀ i call0,
    (map (deleted true) pre ++ oks) !! i = Some call0 →
    oks = [] ∨ oks = [deleted false achall] →
    ∃ ok a, (pre ++ achall :: post) !! i = Some a ∧ call0 = deleted ok a.
Proof.
  intros i call0 Hi Hoks.
  destruct (decide (i < length pre)%nat) as [Hlt|Hge].
  - rewrite lookup_app_l in Hi by (by rewrite length_map).
    rewrite list_lookup_fmap in Hi.
    destruct (pre !! i) as [a|] eqn:Ha; [|done]. simpl in Hi.
    exists true, a. rewrite lookup_app_l by done. by simplify_eq.
  - rewrite lookup_app_r in Hi by (rewrite length_map; lia).
    rewrite length_map in Hi.
    destruct Hoks as [->| ->]; [by rewrite lookup_nil in Hi|].
    destruct (i - length pre)%nat as [|n] eqn:Hn; [|done].
    simpl in Hi. exists false, achall.
    rewrite lookup_app_r by lia. rewrite Hn. by simplify_eq.
Qed.

(** The loops keep whatever the provider's methods keep. *)
Lemma perform_loop_invariant (P : Env B → Prop) achalls :
  (∀ d v x e, P e → P (_perform d v x e).2) →
  ∀ responses self,
    P (env self) → P (env (perform_loop achalls responses self).2).
Proof.
  intros Hperform.
  induction achalls as [|achall achalls IH]; intros responses self HP; [done|].
  simpl. run.
  pose proof (Hperform (domain achall)
                (validation_domain_name achall (domain achall))
                (validation achall (account_key achall)) _ HP) as HP1.
  destruct (_perform _ _ _ (env self)) as [[[]|x] e1]; [|done].
  by apply IH.
Qed.

Lemma cleanup_loop_invariant (P : Env B → Prop) achalls :
  (∀ d v x e, P e → P (_cleanup d v x e).2) →
  ∀ self, P (env self) → P (env (cleanup_loop achalls self).2).
Proof.
  intros Hcleanup.
  induction achalls as [|achall achalls IH]; intros self HP; [done|].
  simpl. run.
  pose proof (Hcleanup (domain achall)
                (validation_domain_name achall (domain achall))
                (validation achall (account_key achall)) _ HP) as HP1.
  destruct (_cleanup _ _ _ (env self)) as [[[]|x] e1]; [|done].
  by apply IH.
Qed.

End more_authenticator.

Section more_contract.

Context {K R B : Type} `{!DNSProvider B}.
Context (dest : string → string).

Implicit Types (self : Authenticator B) (e : Env B).
Implicit Types (achall : AnnotatedChallenge K R).
Implicit Types (achalls pre post : list (AnnotatedChallenge K R)).
Implicit Types (history : list (@method_call K R)) (c : @method_call K R).

Local Ltac run :=
  unfold mbind, M_bind, mret, M_ret, observe, with_env, set_attempt_cleanup,
    modify, gets, raise; simpl.

(** X14. When [_setup_credentials] raises, [perform] raises the same
    exception whatever the challenges are: no record is created, there is
    no sleep, and [_attempt_cleanup] is left as it was, so that on an
    instance that had not performed before a [cleanup] that follows calls
    nothing. *)
Theorem perform_setup_raises_only self achalls x e1 :
  _setup_credentials (env self) = (Raise x, e1) →
  perform dest achalls self =
    (Raise x, {| _attempt_cleanup := _attempt_cleanup self; env := e1;
                 calls := calls self ++ [CallSetupCredentials false] |})
  ∧ (_attempt_cleanup self = false →
     ∀ achalls',
       cleanup achalls' (perform dest achalls self).2 =
         (Ok tt, (perform dest achalls self).2)).
Proof.
  intros Hsetup. rewrite (perform_setup_raises dest achalls self x e1 Hsetup).
  split; [done|]. intros Hflag achalls'. by apply cleanup_not_attempted.
Qed.

(** X15. [perform] returns only after everything went through: if it
    returns responses, then [_setup_credentials] and the create of every
    challenge returned, [propagation-seconds] was a non-negative integer
    for which it slept, the responses are those of the challenges in
    order, and [_attempt_cleanup] is set. *)
Theorem perform_returns_only_if self achalls responses self' :
  perform dest achalls self = (Ok responses, self') →
  ∃ e1 n,
    _setup_credentials (env self) = (Ok tt, e1)
    ∧ all_succeed create_record achalls e1 = Some (env self')
    ∧ config (env self') !! dest "propagation-seconds" = Some (VInt n)
    ∧ 0 ≤ n
    ∧ responses = map (λ a, response a (account_key a)) achalls
    ∧ _attempt_cleanup self' = true
    ∧ calls self' = calls self ++
                    CallSetupCredentials true ::
                    map (created true) achalls ++ [CallSleep n].
Proof.
  destruct (_setup_credentials (env self)) as [[[]|x] e1] eqn:Hsetup.
  2: { by rewrite (perform_setup_raises dest achalls self x e1 Hsetup). }
  destruct (all_succeed create_record achalls e1) as [e2|] eqn:Hall.
  - rewrite (perform_creates_ok dest _ _ _ _ Hsetup Hall).
    unfold conf. run.
    destruct (config e2 !! dest "propagation-seconds") as [[| |n]|] eqn:Hconf;
      simpl; try done.
    unfold sleep. destruct (Z.ltb_spec n 0) as [?|Hn]; [done|]. run.
    intros [= <- <-]. exists e1, n. simpl. by rewrite <- app_assoc.
  - apply all_succeed_None in Hall
      as (pre & achall & post & e' & e'' & y & -> & Hpre & Hfail).
    unfold perform. run. rewrite Hsetup. simpl.
    by rewrite (perform_loop_raise _ _ _ _ _ _ _ _ _ _ Hpre Hfail).
Qed.

(** X16. In every outcome, what [perform] calls is [_setup_credentials]
    once, then [_perform] for the challenges in input order (the i-th
    call is for the i-th challenge, and a call that raised is the last),
    then at most one sleep, which happens only after the create of every
    challenge has returned.  It never calls [_cleanup]. *)
Theorem perform_calls_in_order self achalls :
  ∃ ok creates sleeps,
    calls (perform dest achalls self).2 =
      calls self ++ CallSetupCredentials ok :: creates ++ sleeps
    ∧ (ok = false → creates = [] ∧ sleeps = [])
    ∧ (∀ i call0, creates !! i = Some call0 →
         ∃ ok' achall, achalls !! i = Some achall ∧ call0 = created ok' achall)
    ∧ (sleeps = [] ∨
       ∃ n, 0 ≤ n ∧ sleeps = [CallSleep n]
            ∧ creates = map (created true) achalls).
Proof.
  destruct (_setup_credentials (env self)) as [[[]|x] e1] eqn:Hsetup.
  2: { rewrite (perform_setup_raises dest achalls self x e1 Hsetup).
       exists false, [], []. simpl. split; [done|]. split; [done|].
       split; [intros i call0 Hi; by rewrite lookup_nil in Hi|by left]. }
  exists true.
  destruct (all_succeed create_record achalls e1) as [e2|] eqn:Hall.
  - assert (Hcreates : ∀ i call0,
              map (created true) achalls !! i = Some call0 →
              ∃ ok' achall, achalls !! i = Some achall
                            ∧ call0 = created ok' achall).
    { intros i call0. rewrite list_lookup_fmap.
      destruct (achalls !! i) as [a|]; [|done]. intros [= <-]. eauto. }
    rewrite (perform_creates_ok dest _ _ _ _ Hsetup Hall).
    unfold conf. run.
    destruct (default VNone (config e2 !! dest "propagation-seconds"))
      as [| |n]; simpl.
    + exists (map (created true) achalls), []. rewrite app_nil_r.
      split; [done|]. split; [done|]. split; [done|]. by left.
    + exists (map (created true) achalls), []. rewrite app_nil_r.
      split; [done|]. split; [done|]. split; [done|]. by left.
    + unfold sleep. destruct (Z.ltb_spec n 0) as [?|Hn]; run.
      * exists (map (created true) achalls), []. rewrite app_nil_r.
      split; [done|]. split; [done|]. split; [done|]. by left.
      * exists (map (created true) achalls), [CallSleep n].
        rewrite <- app_assoc. simpl. split; [done|]. split; [done|].
        split; [done|]. right. by exists n.
  - apply all_succeed_None in Hall
      as (pre & achall & post & e' & e'' & y & -> & Hpre & Hfail).
    unfold perform. run. rewrite Hsetup. simpl.
    rewrite (perform_loop_raise _ _ _ _ _ _ _ _ _ _ Hpre Hfail). simpl.
    exists (map (created true) pre ++ [created false achall]), [].
    rewrite app_nil_r, <- app_assoc. simpl. split; [done|]. split; [done|].
    split; [|by left].
    intros i call0 Hi. eapply created_prefix; [exact Hi|by right].
Qed.

(** X17. In every outcome, what [cleanup] calls is [_cleanup] for the
    challenges in input order and nothing else: the i-th call is for the
    i-th challenge, a call that raised is the last one, and when
    [cleanup] returns on an instance with [_attempt_cleanup] set, every
    challenge had its call. *)
Theorem cleanup_calls_in_order self achalls :
  ∃ deletes,
    calls (cleanup achalls self).2 = calls self ++ deletes
    ∧ (∀ i call0, deletes !! i = Some call0 →
         ∃ ok achall, achalls !! i = Some achall ∧ call0 = deleted ok achall)
    ∧ (_attempt_cleanup self = false → deletes = [])
    ∧ (_attempt_cleanup self = true →
       (cleanup achalls self).1 = Ok tt →
       deletes = map (deleted true) achalls)
    ∧ (∀ x, (cleanup achalls self).1 = Raise x →
         ∃ pre achall, deletes = map (deleted true) pre ++ [deleted false achall]
                       ∧ pre ++ [achall] = take (length deletes) achalls).
Proof.
  destruct self as [[|] e calls0]; unfold cleanup; run.
  2: { exists []. rewrite app_nil_r. split; [done|].
       split; [intros i call0 Hi; by rewrite lookup_nil in Hi|]. done. }
  destruct (all_succeed delete_record achalls e) as [e'|] eqn:Hall.
  - rewrite (cleanup_loop_ok _ _ _ _ _ Hall). simpl.
    exists (map (deleted true) achalls). split; [done|]. split.
    { intros i call0. rewrite list_lookup_fmap.
      destruct (achalls !! i) as [a|]; [|done]. intros [= <-]. eauto. }
    done.
  - apply all_succeed_None in Hall
      as (pre & achall & post & e' & e'' & y & -> & Hpre & Hfail).
    rewrite (cleanup_loop_raise _ _ _ _ _ _ _ _ _ Hpre Hfail). simpl.
    exists (map (deleted true) pre ++ [deleted false achall]).
    split; [done|]. split.
    { intros i call0 Hi. eapply deleted_prefix; [exact Hi|by right]. }
    split; [done|]. split; [done|].
    intros x _. exists pre, achall. split; [done|].
    rewrite length_app, length_map. simpl.
    replace (length pre + 1)%nat with (length (pre ++ [achall]))
      by (rewrite length_app; simpl; lia).
    change (pre ++ achall :: post) with (pre ++ [achall] ++ post).
    by rewrite (assoc_L (++) pre [achall] post), take_app_length.
Qed.

(** X18. [perform] and [cleanup] themselves change nothing in the
    environment: a property of it that the provider's
    [_setup_credentials] and [_perform] (respectively [_cleanup]) keep is
    kept by [perform] (respectively [cleanup]), in every outcome. *)
Theorem provider_invariant_kept (P : Env B → Prop) :
  ((∀ e, P e → P (_setup_credentials e).2) →
   (∀ d v x e, P e → P (_perform d v x e).2) →
   ∀ self achalls, P (env self) → P (env (perform dest achalls self).2))
  ∧ ((∀ d v x e, P e → P (_cleanup d v x e).2) →
     ∀ self achalls, P (env self) → P (env (cleanup achalls self).2)).
Proof.
  split.
  - intros Hsetup Hperform self achalls HP. unfold perform. run.
    specialize (Hsetup _ HP).
    destruct (_setup_credentials (env self)) as [[[]|x] e1]; [|done].
    simpl in *.
    match goal with |- context [perform_loop achalls [] ?s] =>
      pose proof (perform_loop_invariant P achalls Hperform [] s Hsetup)
        as Hloop;
      destruct (perform_loop achalls [] s) as [[rs|y] s'] end;
      simpl in *; [|done].
    unfold conf. run.
    destruct (default VNone _) as [| |n]; try done.
    unfold sleep. run. by destruct (n <? 0).
  - intros Hcleanup self achalls HP. unfold cleanup. run.
    destruct (_attempt_cleanup self); [|done].
    by apply cleanup_loop_invariant.
Qed.

(** X19. Nothing clears [_attempt_cleanup]: once it is set it stays set
    through [perform], through [cleanup] and through any sequence of
    calls of the two, whether they return or raise. *)
Theorem attempt_cleanup_never_cleared self :
  _attempt_cleanup self = true →
  (∀ achalls, _attempt_cleanup (perform dest achalls self).2 = true)
  ∧ (∀ achalls, _attempt_cleanup (cleanup achalls self).2 = true)
  ∧ ∀ history, _attempt_cleanup (invoke_all dest history self) = true.
Proof.
  intros Hflag. split; [|split].
  - intros achalls.
    pose proof (invoke_flag dest self (do_perform achalls)) as H.
    simpl in H. rewrite H, Hflag. apply orb_true_r.
  - intros achalls. by rewrite cleanup_flag.
  - intros history. by apply invoke_all_flag_stays.
Qed.

End more_contract.

(** ** More on [_configure_credentials] *)

Section more_credentials.

Context {B : Type}.
Context (dest : string → string) (expanduser abspath : string → string).

Implicit Types (e : Env B) (key label path : string).

Lemma validate_file_Ok_inv (f : FileSystem) path :
  validate_file f path = Ok tt →
  ∃ mode, os_stat f path = Some mode ∧ S_ISREG mode = true.
Proof.
  unfold validate_file, os_path_exists, os_path_isfile.
  destruct (os_stat f path) as [mode|]; [|done]. simpl.
  destruct (S_ISREG mode) eqn:Hreg; [|done]. eauto.
Qed.

Lemma validate_file_permissions_Ok_inv path e e' :
  validate_file_permissions path e = (Ok tt, e') →
  validate_file (fs e) path = Ok tt ∧ config e' = config e ∧ fs e' = fs e.
Proof.
  intros H.
  destruct (validate_file_permissions_frame path e) as (logged & He & _).
  rewrite H in He. simpl in He. subst e'. split; [|done].
  revert H. unfold validate_file_permissions, mbind, M_bind, gets,
    lift_result. simpl.
  by destruct (validate_file (fs e) path) as [[]|x].
Qed.

Lemma configure_file_frame key label e :
  fs (_configure_file dest expanduser abspath key label e).2 = fs e.
Proof.
  rewrite configure_file_unfold. destruct (truthy _); [done|].
  destruct (prompt_for_file_frame expanduser label e) as (asked & _ & Hframe).
  destruct (_prompt_for_file expanduser label e) as [[r|x] e1]; simpl in *;
    by rewrite Hframe.
Qed.

End more_credentials.

(** X20. Whenever [_configure_credentials] returns, the configuration it
    returns was read from the path that is then configured under the
    key, an existing regular file; its mapper is [dest]; and if required
    variables were given, [conf] gives a non-empty value for each of
    them. *)
Theorem configure_credentials_returns_usable {B} (dest : string → string)
    (expanduser abspath : string → string) (key label : string)
    (required_variables : option dict) (e e' : Env B)
    (credentials_configuration : CredentialsConfiguration) :
  _configure_credentials dest expanduser abspath key label
    required_variables e = (Ok credentials_configuration, e') →
  mapper credentials_configuration = dest
  ∧ config e' !! dest key = Some (VStr (filename credentials_configuration))
  ∧ (∃ mode, os_stat (fs e) (filename credentials_configuration) = Some mode
             ∧ S_ISREG mode = true)
  ∧ configobj_parse (fs e) (filename credentials_configuration) =
      Some (confobj credentials_configuration)
  ∧ ∀ d, required_variables = Some d →
      ∀ k, k ∈ dict_keys d →
        ∃ x, CredentialsConfiguration.conf credentials_configuration k = Some x
             ∧ x ≠ EmptyString.
Proof.
  unfold _configure_credentials, mbind, M_bind.
  pose proof (configure_file_frame dest expanduser abspath key label e) as Hfs.
  destruct (_configure_file dest expanduser abspath key label e)
    as [[[]|x] e1]; [|done]. simpl in Hfs.
  unfold conf, gets.
  destruct (config e1 !! dest key) as [[|path|n]|] eqn:Hconf; try done. simpl.
  unfold CredentialsConfiguration.__init__, mbind, M_bind, gets.
  destruct (validate_file_permissions path e1) as [[[]|x] e2] eqn:Hvalid;
    [|done].
  apply validate_file_permissions_Ok_inv in Hvalid as (Hfile & Hc2 & Hf2).
  apply validate_file_Ok_inv in Hfile. rewrite Hfs in Hfile.
  unfold id. rewrite Hf2, Hfs.
  destruct (configobj_parse (fs e) path) as [parsed|] eqn:Hparse; [|done].
  unfold mret, M_ret, lift_result.
  destruct required_variables as [[|kv d]|]; simpl.
  - intros [= <- <-]. simpl. rewrite Hc2. do 4 (split; [done|]).
    by intros d [= <-] k ?%elem_of_nil.
  - destruct (CredentialsConfiguration.require _ (kv :: d)) as [[]|x] eqn:Hreq;
      [|done].
    intros [= <- <-]. simpl. rewrite Hc2. do 4 (split; [done|]).
    intros d' [= <-] k Hk. revert Hreq.
    unfold CredentialsConfiguration.require, CredentialsConfiguration.conf.
    destruct (CredentialsConfiguration.require_loop _ _ _ [])
      as [out|y] eqn:Hloop; [|done].
    apply require_loop_grows in Hloop as (extra & -> & Hall).
    destruct extra; [|done]. intros _. by apply Hall.
  - intros [= <- <-]. simpl. rewrite Hc2. do 4 (split; [done|]). done.
Qed.

(** X21. When the configured path does not name an existing regular
    file, [_configure_credentials] raises [validate_file]'s error
    whatever the required variables are: it does not prompt for another
    path, and nothing is changed or logged. *)
Theorem configure_credentials_invalid_file {B} (dest : string → string)
    (expanduser abspath : string → string) (key label path : string)
    (e : Env B) (x : exn) :
  config e !! dest key = Some (VStr path) → path ≠ EmptyString →
  validate_file (fs e) path = Raise x →
  ∀ required_variables,
    _configure_credentials dest expanduser abspath key label
      required_variables e = (Raise x, e).
Proof.
  intros Hconf Hpath Hfile required_variables.
  unfold _configure_credentials, mbind at 1, M_bind at 1.
  rewrite configure_file_unfold, Hconf. simpl.
  destruct (String.eqb_spec path EmptyString) as [?|_]; [done|]. simpl.
  unfold mbind, M_bind, conf, gets. rewrite Hconf. simpl.
  unfold CredentialsConfiguration.__init__, mbind, M_bind.
  by rewrite (validate_file_permissions_raises _ _ _ Hfile).
Qed.

(** ** The further properties on the example provider *)

Import Fixtures.

Lemma guesses_without_dot_witness :
  base_domain_name_guesses "localhost" = ["localhost"].
Proof. apply (guesses_without_dot "localhost"). vm_compute. reflexivity. Defined.

Lemma guesses_cons_label_witness :
  base_domain_name_guesses ("www" +:+ "." +:+ "example.com") =
    ("www" +:+ "." +:+ "example.com") :: base_domain_name_guesses "example.com".
Proof.
  apply (guesses_cons_label "www" "example.com"). vm_compute. reflexivity.
Defined.

Lemma guesses_of_guess_witness :
  base_domain_name_guesses "example.com" =
    drop 1 (base_domain_name_guesses "www.example.com").
Proof.
  apply (guesses_of_guess "www.example.com" "example.com" 1).
  vm_compute. reflexivity.
Defined.

Lemma validate_file_permissions_lstat_bits_witness :
  validate_file_permissions "/etc/letsencrypt/link.ini" linked =
    (Ok tt,
     if Z.testbit symbolic_link 2 || Z.testbit symbolic_link 1
        || Z.testbit symbolic_link 0
     then {| config := config linked; fs := fs linked;
             answers := answers linked;
             warnings := warnings linked ++
               ["Unsafe permissions on credentials configuration file: "
                +:+ "/etc/letsencrypt/link.ini"];
             provider := provider linked |}
     else linked)
  ∧ validate_file_permissions "/etc/letsencrypt/example.ini" configured =
      (Ok tt,
       if Z.testbit private_file 2 || Z.testbit private_file 1
          || Z.testbit private_file 0
       then {| config := config configured; fs := fs configured;
               answers := answers configured;
               warnings := warnings configured ++
                 ["Unsafe permissions on credentials configuration file: "
                  +:+ "/etc/letsencrypt/example.ini"];
               provider := provider configured |}
       else configured).
Proof.
  split.
  - apply (validate_file_permissions_lstat_bits "/etc/letsencrypt/link.ini"
             linked private_file symbolic_link).
    + vm_compute. reflexivity.
    + vm_compute. reflexivity.
    + vm_compute. reflexivity.
  - apply (validate_file_permissions_lstat_bits "/etc/letsencrypt/example.ini"
             configured private_file private_file).
    + vm_compute. reflexivity.
    + vm_compute. reflexivity.
    + vm_compute. reflexivity.
Defined.

Lemma validate_file_permissions_only_warns_witness :
  (validate_file_permissions "/etc/letsencrypt/missing.ini" configured).2 =
    configured
  ∧ (PluginError ("File not found: " +:+ "/etc/letsencrypt/missing.ini") =
       PluginError ("File not found: " +:+ "/etc/letsencrypt/missing.ini")
     ∨ PluginError ("File not found: " +:+ "/etc/letsencrypt/missing.ini") =
         PluginError ("Path is not a file: " +:+ "/etc/letsencrypt/missing.ini")
     ∨ PluginError ("File not found: " +:+ "/etc/letsencrypt/missing.ini") =
         OSError "/etc/letsencrypt/missing.ini").
Proof.
  apply (proj2 (proj2 (proj2 (proj2 (proj2
           (validate_file_permissions_only_warns
              "/etc/letsencrypt/missing.ini" configured)))))).
  vm_compute. reflexivity.
Defined.

Lemma require_ok_conf_witness :
  ∃ x, CredentialsConfiguration.conf
         (credentials "/etc/letsencrypt/example.ini") "token" = Some x
       ∧ x ≠ EmptyString.
Proof.
  apply (require_ok_conf (credentials "/etc/letsencrypt/example.ini") required).
  - vm_compute. reflexivity.
  - apply (bool_decide_unpack _). vm_compute. exact I.
Defined.

Lemma require_one_failure_witness :
  CredentialsConfiguration.require partial
    ([("token", "API token")] ++ ("email", "account email") :: []) =
    Raise (PluginError
      ("Missing property in credentials configuration file " +:+
       "/etc/letsencrypt/partial.ini" +:+ ":" +:+ newline +:+ " * " +:+
       "Property " +:+ dquote +:+ "dns_example_email" +:+ dquote +:+
       " not found (should be " +:+ "account email" +:+ ")."))
  ∧ CredentialsConfiguration.require partial
      ([("token", "API token")] ++ ("secret", "API secret") :: []) =
      Raise (PluginError
        ("Missing property in credentials configuration file " +:+
         "/etc/letsencrypt/partial.ini" +:+ ":" +:+ newline +:+ " * " +:+
         "Property " +:+ dquote +:+ "dns_example_secret" +:+ dquote +:+
         " not set (should be " +:+ "API secret" +:+ ").")).
Proof.
  assert (Hpass : ∀ k' v', (k', v') ∈ [("token", "API token")] ++ [] →
            ∃ x, confobj partial !! mapper partial k' = Some x
                 ∧ x ≠ EmptyString).
  { intros k' v' [[= -> ->]|Hin]%elem_of_cons;
      [|by apply elem_of_nil in Hin].
    eexists. split; [vm_compute; reflexivity|discriminate]. }
  split.
  - apply (proj1 (require_one_failure partial
                    [("token", "API token")] [] "email" "account email"
                    ltac:(apply (bool_decide_unpack _); vm_compute; exact I)
                    Hpass)).
    vm_compute. reflexivity.
  - apply (proj2 (require_one_failure partial
                    [("token", "API token")] [] "secret" "API secret"
                    ltac:(apply (bool_decide_unpack _); vm_compute; exact I)
                    Hpass)).
    vm_compute. reflexivity.
Defined.

Lemma require_two_failures_witness :
  CredentialsConfiguration.require partial
    ([] ++ ("email", "account email") :: [("token", "API token")] ++
     ("secret", "API secret") :: []) =
    Raise (PluginError
      ("Missing properties in credentials configuration file " +:+
       "/etc/letsencrypt/partial.ini" +:+ ":" +:+ newline +:+ " * " +:+
       "Property " +:+ dquote +:+ "dns_example_email" +:+ dquote +:+
       " not found (should be " +:+ "account email" +:+ ")." +:+
       newline +:+ " * " +:+
       "Property " +:+ dquote +:+ "dns_example_secret" +:+ dquote +:+
       " not set (should be " +:+ "API secret" +:+ ").")).
Proof.
  apply (require_two_failures partial
           [] [("token", "API token")] []
           "email" "account email" "secret" "API secret").
  - apply (bool_decide_unpack _). vm_compute. exact I.
  - intros k' v' [[= -> ->]|Hin]%elem_of_cons; [|by apply elem_of_nil in Hin].
    eexists. split; [vm_compute; reflexivity|discriminate].
  - vm_compute. reflexivity.
  - vm_compute. reflexivity.
Defined.

Lemma configure_ensures_value_witness :
  _configure dest "credentials" "credentials INI file" configured =
    (Ok tt, configured)
  ∧ truthy (default VNone
              (config (_configure dest "token" "API token" prompted).2
                 !! dest "token")) = true
  ∧ _configure dest "token" "API token"
      (_configure dest "token" "API token" prompted).2 =
      (Ok tt, (_configure dest "token" "API token" prompted).2).
Proof.
  split.
  - apply (proj1 (configure_ensures_value dest "credentials"
                    "credentials INI file" configured)).
    vm_compute. reflexivity.
  - apply (proj1 (proj2 (configure_ensures_value dest "token" "API token"
                           prompted))).
    vm_compute. reflexivity.
Defined.

Lemma configure_file_stores_absolute_path_witness :
  ∃ answer mode,
    config (_configure_file dest expanduser abspath "credentials"
              "credentials INI file" prompted).2 !! dest "credentials" =
      Some (VStr (abspath (expanduser answer)))
    ∧ answer ≠ EmptyString
    ∧ os_stat (fs prompted) (expanduser answer) = Some mode
    ∧ S_ISREG mode = true.
Proof.
  apply (proj1 (proj2 (configure_file_stores_absolute_path dest expanduser
                         abspath "credentials" "credentials INI file"
                         prompted))).
  - vm_compute. reflexivity.
  - vm_compute. reflexivity.
Defined.

Lemma perform_setup_raises_only_witness :
  perform dest [www; mail] (new cancelled) =
    (Raise (PluginError "credentials INI file required to proceed."),
     {| _attempt_cleanup := _attempt_cleanup (new cancelled);
        env := set_answers [] cancelled;
        calls := calls (new cancelled) ++ [CallSetupCredentials false] |})
  ∧ (_attempt_cleanup (new cancelled) = false →
     ∀ achalls' : list (AnnotatedChallenge string string),
       cleanup achalls' (perform dest [www; mail] (new cancelled)).2 =
         (Ok tt, (perform dest [www; mail] (new cancelled)).2)).
Proof.
  apply (perform_setup_raises_only dest (new cancelled) [www; mail]).
  vm_compute. reflexivity.
Defined.

Lemma perform_returns_only_if_witness :
  ∃ e1 n,
    _setup_credentials (env (new configured)) = (Ok tt, e1)
    ∧ all_succeed create_record [www; mail] e1 =
        Some (set_provider
                [("_acme-challenge.mail.example.com", "token-2");
                 ("_acme-challenge.www.example.com", "token-1")] configured)
    ∧ config (set_provider
                [("_acme-challenge.mail.example.com", "token-2");
                 ("_acme-challenge.www.example.com", "token-1")] configured)
        !! dest "propagation-seconds" = Some (VInt n)
    ∧ 0 ≤ n
    ∧ ["token-1.account-key"; "token-2.account-key"] =
        map (λ a, response a (account_key a)) [www; mail]
    ∧ true = true
    ∧ [CallSetupCredentials true; created true www; created true mail;
       CallSleep 10] =
      calls (new configured) ++
      CallSetupCredentials true ::
      map (created true) [www; mail] ++ [CallSleep n].
Proof.
  apply (perform_returns_only_if dest (new configured) [www; mail]
           ["token-1.account-key"; "token-2.account-key"]
           {| _attempt_cleanup := true;
              env := set_provider
                       [("_acme-challenge.mail.example.com", "token-2");
                        ("_acme-challenge.www.example.com", "token-1")]
                       configured;
              calls := [CallSetupCredentials true; created true www;
                        created true mail; CallSleep 10] |}).
  vm_compute. reflexivity.
Defined.

Lemma attempt_cleanup_never_cleared_witness :
  (∀ achalls : list (AnnotatedChallenge string string),
     _attempt_cleanup
       (perform dest achalls
          {| _attempt_cleanup := true; env := cancelled; calls := [] |}).2 =
     true)
  ∧ (∀ achalls : list (AnnotatedChallenge string string),
       _attempt_cleanup
         (cleanup achalls
            {| _attempt_cleanup := true; env := cancelled; calls := [] |}).2 =
       true)
  ∧ ∀ history : list (@method_call string string),
      _attempt_cleanup
        (invoke_all dest history
           {| _attempt_cleanup := true; env := cancelled; calls := [] |}) =
      true.
Proof.
  apply (attempt_cleanup_never_cleared dest
           {| _attempt_cleanup := true; env := cancelled; calls := [] |}).
  reflexivity.
Defined.

Lemma configure_credentials_returns_usable_witness :
  ∃ x, CredentialsConfiguration.conf
         (credentials "/etc/letsencrypt/example.ini") "email" = Some x
       ∧ x ≠ EmptyString.
Proof.
  assert (Hrun :
    _configure_credentials dest expanduser abspath
      "credentials" "credentials INI file" (Some required) prompted =
    (Ok (credentials "/etc/letsencrypt/example.ini"),
     set_config
       <[ "dns_example_credentials" := VStr "/etc/letsencrypt/example.ini" ]>
       (set_answers [] prompted))) by (vm_compute; reflexivity).
  apply (proj2 (proj2 (proj2 (proj2
           (configure_credentials_returns_usable dest expanduser abspath
              "credentials" "credentials INI file" (Some required)
              prompted _ _ Hrun))))
           required eq_refl "email").
  apply (bool_decide_unpack _). vm_compute. exact I.
Defined.

Lemma configure_credentials_invalid_file_witness :
  _configure_credentials dest expanduser abspath
    "credentials" "credentials INI file" (Some required) misconfigured =
    (Raise (PluginError
              ("File not found: " +:+ "/etc/letsencrypt/missing.ini")),
     misconfigured)
  ∧ _configure_credentials dest expanduser abspath
      "credentials" "credentials INI file" None misconfigured =
      (Raise (PluginError
                ("File not found: " +:+ "/etc/letsencrypt/missing.ini")),
       misconfigured).
Proof.
  assert (Hconf : config misconfigured !! dest "credentials" =
                    Some (VStr "/etc/letsencrypt/missing.ini"))
    by (vm_compute; reflexivity).
  assert (Hpath : "/etc/letsencrypt/missing.ini" ≠ EmptyString)
    by discriminate.
  assert (Hfile : validate_file (fs misconfigured)
                    "/etc/letsencrypt/missing.ini" =
                  Raise (PluginError
                    ("File not found: " +:+ "/etc/letsencrypt/missing.ini")))
    by (vm_compute; reflexivity).
  split.
  - apply (configure_credentials_invalid_file dest expanduser abspath
             "credentials" "credentials INI file"
             "/etc/letsencrypt/missing.ini" misconfigured _
             Hconf Hpath Hfile (Some required)).
  - apply (configure_credentials_invalid_file dest expanduser abspath
             "credentials" "credentials INI file"
             "/etc/letsencrypt/missing.ini" misconfigured _
             Hconf Hpath Hfile None).
Defined.
